(** * RingBuffer: a shallow embedding of RingBuffer.c and its properties

    The buffer of [RingBuffer.c] is a record of a storage pointer and four
    [size_t] fields.  Memory objects are lists of bytes, a pointer is either
    null or designates the first byte of an object, and every access outside
    an object (or through a null pointer) is undefined behaviour, which the
    embedding keeps apart from the status codes the functions return.

    The objects a caller passes in are distinct from the storage of the
    buffer.  A [u16_t] argument is an integer the caller took from
    [0 .. 2^16 - 1]; the conversions the C code performs on its own values
    ([size_t] arithmetic, assignments to [u16_t] locals) are written out. *)

From Stdlib Require Import ZArith List Lia Bool.
From Stdlib.Strings Require Import Byte.
Import ListNotations.
Local Open Scope Z_scope.

(** ** Memory objects, pointers and undefined behaviour *)

Abbreviation len_of l := (Z.of_nat (length l)) (only parsing).

(** A pointer is null or points at the first byte of an object [obj]. *)
Inductive ptr : Type :=
| NULL
| Ptr (obj : list byte).

(** The outcome of running C code: a result, or undefined behaviour. *)
Inductive exec (A : Type) : Type :=
| Done (a : A)
| Undef.
Arguments Done {A} a.
Arguments Undef {A}.

Definition bind {A B : Type} (m : exec A) (k : A -> exec B) : exec B :=
  match m with
  | Done a => k a
  | Undef => Undef
  end.

Notation "x <- m ;; k" := (bind m (fun x => k))
  (at level 61, m at next level, right associativity).
Notation "' p <- m ;; k" := (bind m (fun x => let 'p := x in k))
  (at level 61, p pattern, m at next level, right associativity).

(** [memcpy (dst + doff) (src + soff) n]: both ranges must lie inside their
    objects; the result is the new content of the destination object. *)
Definition memcpy (dst : ptr) (doff : Z) (src : ptr) (soff : Z) (n : Z)
  : exec ptr :=
  match dst, src with
  | Ptr d, Ptr s =>
      if (0 <=? doff) && (0 <=? soff) && (0 <=? n)
         && (doff + n <=? len_of d) && (soff + n <=? len_of s)
      then Done (Ptr (firstn (Z.to_nat doff) d
                      ++ firstn (Z.to_nat n) (skipn (Z.to_nat soff) s)
                      ++ skipn (Z.to_nat (doff + n)) d))
      else Undef
  | _, _ => Undef
  end.

(** [p[i]] as an rvalue. *)
Definition load (p : ptr) (i : Z) : exec byte :=
  match p with
  | Ptr d =>
      if (0 <=? i) && (i <? len_of d)
      then match nth_error d (Z.to_nat i) with
           | Some b => Done b
           | None => Undef
           end
      else Undef
  | NULL => Undef
  end.

(** [p[i] = b]. *)
Definition store (p : ptr) (i : Z) (b : byte) : exec ptr :=
  match p with
  | Ptr d =>
      if (0 <=? i) && (i <? len_of d)
      then Done (Ptr (firstn (Z.to_nat i) d ++ b :: skipn (Z.to_nat (i + 1)) d))
      else Undef
  | NULL => Undef
  end.

(** ** The types of RingBuffer.h *)

Inductive RINGBUF_STATUS : Type :=
| RINGBUF_OK
| RINGBUF_ERR
| RINGBUF_PARAM_ERR
| RINGBUF_OVERFLOW.

Definition RINGBUF_STATUS_eqb (a b : RINGBUF_STATUS) : bool :=
  match a, b with
  | RINGBUF_OK, RINGBUF_OK
  | RINGBUF_ERR, RINGBUF_ERR
  | RINGBUF_PARAM_ERR, RINGBUF_PARAM_ERR
  | RINGBUF_OVERFLOW, RINGBUF_OVERFLOW => true
  | _, _ => false
  end.

Record RINGBUF_t : Type := mkRINGBUF {
  buf : ptr;       (* u8_t *buf : storage of the buffer *)
  tail : Z;        (* size_t : place of read point [cells] *)
  head : Z;        (* size_t : place of write point [cells] *)
  size : Z;        (* size_t : size of buffer [cells] *)
  cell_size : Z    (* size_t : size of one cell [bytes] *)
}.

Definition set_buf (rb : RINGBUF_t) (p : ptr) : RINGBUF_t :=
  mkRINGBUF p (tail rb) (head rb) (size rb) (cell_size rb).
Definition set_tail (rb : RINGBUF_t) (v : Z) : RINGBUF_t :=
  mkRINGBUF (buf rb) v (head rb) (size rb) (cell_size rb).
Definition set_head (rb : RINGBUF_t) (v : Z) : RINGBUF_t :=
  mkRINGBUF (buf rb) (tail rb) v (size rb) (cell_size rb).
Definition set_size (rb : RINGBUF_t) (v : Z) : RINGBUF_t :=
  mkRINGBUF (buf rb) (tail rb) (head rb) v (cell_size rb).
Definition set_cell_size (rb : RINGBUF_t) (v : Z) : RINGBUF_t :=
  mkRINGBUF (buf rb) (tail rb) (head rb) (size rb) v.

(** Conversion to [u16_t]. *)
Definition to_u16 (x : Z) : Z := x mod 2 ^ 16.

Section RingBuf.

(** [libs.h], which defines [size_t], is not part of the sources: the width
    of [size_t] is a parameter.  Arithmetic in [size_t] wraps modulo
    [2 ^ size_bits]. *)
Variable size_bits : Z.

Definition to_size_t (x : Z) : Z := x mod 2 ^ size_bits.

(** ** The functions of RingBuffer.c

    Every function returns its status together with the buffer record after
    the call and, where it has one, the object behind its output pointer. *)

Definition RingBuf_Clear (rb : RINGBUF_t) : RINGBUF_STATUS * RINGBUF_t :=
  match buf rb with
  | NULL => (RINGBUF_PARAM_ERR, rb)
  | Ptr _ => (RINGBUF_OK, set_tail (set_head rb 0) 0)
  end.

Definition RingBuf_Init (b : ptr) (sz : Z) (cellsize : Z) (rb : RINGBUF_t)
  : RINGBUF_STATUS * RINGBUF_t :=
  let rb := set_size rb sz in
  let rb := set_cell_size rb cellsize in
  let rb := set_buf rb b in
  let rb := snd (RingBuf_Clear rb) in
  (match buf rb with Ptr _ => RINGBUF_OK | NULL => RINGBUF_PARAM_ERR end, rb).

(** [len] is the previous content of [*len]; the third component is its
    content after the call. *)
Definition RingBuf_Available (len : Z) (rb : RINGBUF_t)
  : RINGBUF_STATUS * RINGBUF_t * Z :=
  match buf rb with
  | NULL => (RINGBUF_PARAM_ERR, rb, len)
  | Ptr _ =>
      if head rb <? tail rb
      then (RINGBUF_OK, rb,
            to_u16 (to_size_t (to_size_t (size rb - tail rb) + head rb)))
      else (RINGBUF_OK, rb, to_u16 (to_size_t (head rb - tail rb)))
  end.

Definition RingBuf_BytePut (data : byte) (rb : RINGBUF_t)
  : exec (RINGBUF_STATUS * RINGBUF_t) :=
  match buf rb with
  | NULL => Done (RINGBUF_PARAM_ERR, rb)
  | Ptr _ =>
      b <- store (buf rb) (head rb) data ;;
      let rb := set_head (set_buf rb b) (to_size_t (head rb + 1)) in
      let rb := if head rb >=? size rb then set_head rb 0 else rb in
      Done (RINGBUF_OK, rb)
  end.

Definition RingBuf_DataPut (data : ptr) (len : Z) (rb : RINGBUF_t)
  : exec (RINGBUF_STATUS * RINGBUF_t) :=
  match buf rb with
  | NULL => Done (RINGBUF_PARAM_ERR, rb)
  | Ptr _ =>
      if len >? size rb then Done (RINGBUF_OVERFLOW, rb) else
      let input := data in
      let s_addr := 0 in
      let space := to_size_t (size rb - head rb) in
      '(rb, s_addr, len) <-
        (if len >? space then
           b <- memcpy (buf rb) (to_size_t (head rb * cell_size rb))
                       input (to_size_t (s_addr * cell_size rb))
                       (to_size_t (space * cell_size rb)) ;;
           Done (set_head (set_buf rb b) 0, space,
                 to_u16 (to_size_t (len - space)))
         else Done (rb, s_addr, len)) ;;
      b <- memcpy (buf rb) (to_size_t (head rb * cell_size rb))
                  input (to_size_t (s_addr * cell_size rb))
                  (to_size_t (len * cell_size rb)) ;;
      let rb := set_head (set_buf rb b) (to_size_t (head rb + len)) in
      let rb := if head rb >=? size rb then set_head rb 0 else rb in
      Done (RINGBUF_OK, rb)
  end.

Definition RingBuf_CellPut (data : ptr) (rb : RINGBUF_t)
  : exec (RINGBUF_STATUS * RINGBUF_t) :=
  RingBuf_DataPut data 1 rb.

Definition RingBuf_ByteWatch (data : ptr) (rb : RINGBUF_t)
  : exec (RINGBUF_STATUS * RINGBUF_t * ptr) :=
  match data with
  | NULL => Done (RINGBUF_PARAM_ERR, rb, data)
  | Ptr _ =>
      b <- load (buf rb) (tail rb) ;;
      data <- store data 0 b ;;
      Done (RINGBUF_OK, rb, data)
  end.

Definition RingBuf_DataWatch (data : ptr) (len : Z) (rb : RINGBUF_t)
  : exec (RINGBUF_STATUS * RINGBUF_t * ptr) :=
  match data with
  | NULL => Done (RINGBUF_PARAM_ERR, rb, data)
  | Ptr _ =>
      if len >? size rb then Done (RINGBUF_OVERFLOW, rb, data) else
      let s_addr := 0 in
      let space := to_u16 (to_size_t (size rb - tail rb)) in
      let loc_tail := to_u16 (tail rb) in
      '(data, loc_tail, s_addr, len) <-
        (if len >? space then
           d <- memcpy data (to_size_t (s_addr * cell_size rb))
                       (buf rb) (to_size_t (loc_tail * cell_size rb))
                       (to_size_t (space * cell_size rb)) ;;
           Done (d, 0, space, to_u16 (len - space))
         else Done (data, loc_tail, s_addr, len)) ;;
      d <- memcpy data (to_size_t (s_addr * cell_size rb))
                  (buf rb) (to_size_t (loc_tail * cell_size rb))
                  (to_size_t (len * cell_size rb)) ;;
      Done (RINGBUF_OK, rb, d)
  end.

Definition RingBuf_CellWatch (data : ptr) (rb : RINGBUF_t)
  : exec (RINGBUF_STATUS * RINGBUF_t * ptr) :=
  RingBuf_DataWatch data 1 rb.

Definition RingBuf_ByteRead (data : ptr) (rb : RINGBUF_t)
  : exec (RINGBUF_STATUS * RINGBUF_t * ptr) :=
  match buf rb with
  | NULL => Done (RINGBUF_PARAM_ERR, rb, data)
  | Ptr _ =>
      '(st, rb, data) <- RingBuf_ByteWatch data rb ;;
      if negb (RINGBUF_STATUS_eqb st RINGBUF_OK) then Done (st, rb, data) else
      let rb := set_tail rb (to_size_t (tail rb + 1)) in
      let rb := if tail rb >=? size rb then set_tail rb 0 else rb in
      Done (st, rb, data)
  end.

Definition RingBuf_DataRead (data : ptr) (len : Z) (rb : RINGBUF_t)
  : exec (RINGBUF_STATUS * RINGBUF_t * ptr) :=
  match buf rb with
  | NULL => Done (RINGBUF_PARAM_ERR, rb, data)
  | Ptr _ =>
      '(st, rb, data) <- RingBuf_DataWatch data len rb ;;
      if negb (RINGBUF_STATUS_eqb st RINGBUF_OK) then Done (st, rb, data) else
      let rb := set_tail rb (to_size_t (tail rb + len)) in
      let rb := if tail rb >=? size rb then set_tail rb 0 else rb in
      Done (st, rb, data)
  end.

Definition RingBuf_CellRead (data : ptr) (rb : RINGBUF_t)
  : exec (RINGBUF_STATUS * RINGBUF_t * ptr) :=
  RingBuf_DataRead data 1 rb.

End RingBuf.

(** ** The interface as a set of calls *)

Inductive op : Type :=
| Clear
| Available (len : Z)
| BytePut (b : byte)
| CellPut (data : ptr)
| DataPut (data : ptr) (len : Z)
| ByteRead (data : ptr)
| CellRead (data : ptr)
| DataRead (data : ptr) (len : Z)
| ByteWatch (data : ptr)
| CellWatch (data : ptr)
| DataWatch (data : ptr) (len : Z).

Definition is_watch (o : op) : bool :=
  match o with
  | ByteWatch _ | CellWatch _ | DataWatch _ _ => true
  | _ => false
  end.

Section Calls.

Variable size_bits : Z.

(** Status and buffer record after one call of the interface. *)
Definition call (o : op) (rb : RINGBUF_t) : exec (RINGBUF_STATUS * RINGBUF_t) :=
  match o with
  | Clear => Done (RingBuf_Clear rb)
  | Available len => Done (fst (RingBuf_Available size_bits len rb))
  | BytePut b => RingBuf_BytePut size_bits b rb
  | CellPut data => RingBuf_CellPut size_bits data rb
  | DataPut data len => RingBuf_DataPut size_bits data len rb
  | ByteRead data => r <- RingBuf_ByteRead size_bits data rb ;; Done (fst r)
  | CellRead data => r <- RingBuf_CellRead size_bits data rb ;; Done (fst r)
  | DataRead data len => r <- RingBuf_DataRead size_bits data len rb ;; Done (fst r)
  | ByteWatch data => r <- RingBuf_ByteWatch data rb ;; Done (fst r)
  | CellWatch data => r <- RingBuf_CellWatch size_bits data rb ;; Done (fst r)
  | DataWatch data len => r <- RingBuf_DataWatch size_bits data len rb ;; Done (fst r)
  end.

(** A run of [RingBuf_DataPut] calls, each with its source pointer and its
    length; the statuses are collected in call order. *)
Fixpoint put_all (calls : list (ptr * Z)) (rb : RINGBUF_t)
  : exec (list RINGBUF_STATUS * RINGBUF_t) :=
  match calls with
  | [] => Done ([], rb)
  | (data, len) :: calls =>
      '(st, rb) <- RingBuf_DataPut size_bits data len rb ;;
      '(sts, rb) <- put_all calls rb ;;
      Done (st :: sts, rb)
  end.

(** A run of [RingBuf_DataRead] calls, each with its destination pointer and
    its length; statuses and destination objects are collected in call
    order. *)
Fixpoint read_all (calls : list (ptr * Z)) (rb : RINGBUF_t)
  : exec (list (RINGBUF_STATUS * ptr) * RINGBUF_t) :=
  match calls with
  | [] => Done ([], rb)
  | (data, len) :: calls =>
      '(st, rb, out) <- RingBuf_DataRead size_bits data len rb ;;
      '(outs, rb) <- read_all calls rb ;;
      Done ((st, out) :: outs, rb)
  end.

End Calls.

(** Total number of cells of a run of calls. *)
Definition total (calls : list (ptr * Z)) : Z :=
  fold_right (fun c acc => snd c + acc) 0 calls.

(** [p] points to an object of at least [n] bytes. *)
Definition holds (p : ptr) (n : Z) : Prop :=
  exists d, p = Ptr d /\ n <= len_of d.

(** The record is bound to a storage object [st] of [size * cell_size]
    bytes, with a capacity that was passed as a [u16_t]. *)
Record bound_to (size_bits : Z) (rb : RINGBUF_t) (st : list byte) : Prop := {
  bound_buf : buf rb = Ptr st;
  bound_len : len_of st = size rb * cell_size rb;
  bound_size : 0 <= size rb < 2 ^ 16;
  bound_cell : 0 <= cell_size rb;
  bound_fit : size rb * cell_size rb < 2 ^ size_bits
}.

(** The arguments of a transfer call are usable with cells of [cell] bytes:
    a length that is not negative and a pointer to at least that many
    cells. *)
Definition args_hold (cell : Z) (c : ptr * Z) : Prop :=
  0 <= snd c /\ holds (fst c) (snd c * cell).

(** What a call needs from its arguments to stay inside the objects it is
    given: room for the cells it transfers (the byte calls address the
    storage by cell index, which needs cells of at least one byte). *)
Definition args_ok (o : op) (rb : RINGBUF_t) : Prop :=
  match o with
  | Clear | Available _ => True
  | BytePut _ => 1 <= cell_size rb
  | CellPut data | CellRead data | CellWatch data =>
      holds data (1 * cell_size rb)
  | DataPut data len | DataRead data len | DataWatch data len =>
      0 <= len /\ holds data (len * cell_size rb)
  | ByteRead data | ByteWatch data => 1 <= cell_size rb /\ holds data 1
  end.

(** The index invariant of the data model. *)
Definition idx_ok (rb : RINGBUF_t) : Prop :=
  0 <= head rb < size rb /\ 0 <= tail rb < size rb.

(** The [n] bytes of the ring that start at byte offset [off] of the storage
    [st], continuing at its beginning when its end is reached. *)
Definition window (st : list byte) (off n : Z) : list byte :=
  firstn (Z.to_nat n) (skipn (Z.to_nat off) (st ++ st)).

(** The bytes a transfer call moves: the first [len] cells of the object
    behind its pointer. *)
Definition cells_of (cell : Z) (c : ptr * Z) : list byte :=
  match fst c with
  | Ptr d => firstn (Z.to_nat (snd c * cell)) d
  | NULL => []
  end.

(** The data of a run of transfer calls, in call order. *)
Definition data_of (cell : Z) (calls : list (ptr * Z)) : list byte :=
  concat (map (cells_of cell) calls).

(** The data a run of reads delivered: every destination object after its
    call, cut to the length of that call. *)
Definition delivered (cell : Z) (reads : list (ptr * Z))
           (outs : list (RINGBUF_STATUS * ptr)) : list byte :=
  data_of cell (combine (map snd outs) (map snd reads)).

(** No read of the run goes past the end of a storage of [cap] cells, the
    first one starting at cell [t], each next one where [tail] then is. *)
Fixpoint no_cross (cap t : Z) (reads : list (ptr * Z)) : Prop :=
  match reads with
  | [] => True
  | c :: reads => t + snd c <= cap /\ no_cross cap ((t + snd c) mod cap) reads
  end.

(** A run of calls of the interface; the statuses are dropped. *)
Fixpoint run (size_bits : Z) (ops : list op) (rb : RINGBUF_t)
  : exec RINGBUF_t :=
  match ops with
  | [] => Done rb
  | o :: ops => r <- call size_bits o rb ;; run size_bits ops (snd r)
  end.

(** ** Concrete buffers *)

(** The byte of value [n]. *)
Definition u8 (n : Z) : byte :=
  match Byte.of_N (Z.to_N n) with
  | Some b => b
  | None => x00
  end.

Definition bytes (l : list Z) : list byte := map u8 l.

Definition zeros (n : nat) : list byte := repeat x00 n.

(** A record just initialised over a zeroed storage of [cells] cells of
    [cell] bytes. *)
Definition fresh (cells cell : Z) : RINGBUF_t :=
  snd (RingBuf_Init (Ptr (zeros (Z.to_nat (cells * cell)))) cells cell
         (mkRINGBUF NULL 0 0 0 0)).

(** The count [RingBuf_Available] writes, with a 32-bit [size_t]. *)
Definition avail (rb : RINGBUF_t) : Z := snd (RingBuf_Available 32 0 rb).

(** Three one-byte cells, one put and read, then three put across the end
    of the storage: the state of [example_ovf] before its last read. *)
Definition crossing3 : RINGBUF_t :=
  mkRINGBUF (Ptr (bytes [30; 10; 20])) 1 1 3 1.

(** A record whose initialisation was given a null storage. *)
Definition unbound3 : RINGBUF_t :=
  snd (RingBuf_Init NULL 3 1 (mkRINGBUF NULL 0 0 0 0)).

(** A buffer of four one-byte cells after two cells were put and one was
    read. *)
Definition used4 : RINGBUF_t :=
  mkRINGBUF (Ptr (bytes [1; 2; 0; 0])) 1 2 4 1.

(** A buffer of four one-byte cells after three cells were put and read:
    empty, with both indices on the last cell. *)
Definition spun4 : RINGBUF_t :=
  mkRINGBUF (Ptr (bytes [1; 2; 3; 0])) 3 3 4 1.

(** A 16-bit value as the two bytes a little-endian machine stores. *)
Definition u16le (n : Z) : list byte := [u8 (n mod 256); u8 (n / 256)].

(** * Properties *)

(** ** The demonstration program, evaluated *)

Example example_8bit :
  (r1 <- RingBuf_BytePut 32 (u8 10) (fresh 10 1) ;;
   r2 <- RingBuf_DataPut 32 (Ptr (map u8 [24; 255; 8])) 3 (snd r1) ;;
   '(_, r3, o3) <- RingBuf_ByteRead 32 (Ptr [x00]) (snd r2) ;;
   '(_, r4, o4) <- RingBuf_ByteWatch (Ptr [x00]) r3 ;;
   '(_, r5, o5) <- RingBuf_DataRead 32 (Ptr (repeat x00 5)) (avail r4) r4 ;;
   Done (avail (snd r1), avail (snd r2), o3, avail r3, o4, avail r4, o5,
         avail r5))
  = Done (1, 4, Ptr [u8 10], 3, Ptr [u8 24], 3,
          Ptr (map u8 [24; 255; 8; 0; 0]), 0).
Proof. vm_compute. reflexivity. Qed.

Example example_ovf :
  (r1 <- RingBuf_CellPut 32 (Ptr (map u8 [1; 2; 3; 4])) (fresh 3 4) ;;
   '(_, r2, o2) <- RingBuf_CellRead 32 (Ptr (repeat x00 4)) (snd r1) ;;
   r3 <- RingBuf_DataPut 32 (Ptr (map u8 [11; 12; 13; 14; 21; 22; 23; 24;
                                        31; 32; 33; 34])) 3 r2 ;;
   '(_, r4, o4) <- RingBuf_DataRead 32 (Ptr (repeat x00 12)) 3 (snd r3) ;;
   Done (head r2, tail r2, o2, head (snd r3), o4))
  = Done (1, 1, Ptr (map u8 [1; 2; 3; 4]), 1,
          Ptr (map u8 [11; 12; 13; 14; 21; 22; 23; 24; 31; 32; 33; 34])).
Proof. vm_compute. reflexivity. Qed.

Example example_16bit :
  (r1 <- RingBuf_CellPut 32 (Ptr (u16le 3443)) (fresh 10 2) ;;
   r2 <- RingBuf_DataPut 32 (Ptr (u16le 1337 ++ u16le 2281 ++ u16le 1234)) 3
           (snd r1) ;;
   '(_, r3, o3) <- RingBuf_CellRead 32 (Ptr (u16le 0)) (snd r2) ;;
   '(_, r4, o4) <- RingBuf_CellWatch 32 (Ptr (u16le 0)) r3 ;;
   '(_, r5, o5) <- RingBuf_DataRead 32 (Ptr (zeros 10)) (avail r4) r4 ;;
   Done (avail (snd r1), avail (snd r2), o3, avail r3, o4, avail r4, o5,
         avail r5))
  = Done (1, 4, Ptr (u16le 3443), 3, Ptr (u16le 1337), 3,
          Ptr (u16le 1337 ++ u16le 2281 ++ u16le 1234 ++ zeros 4), 0).
Proof. vm_compute. reflexivity. Qed.

(** ** Lists of bytes, addressed by [Z] offsets *)

Lemma memcpy_Ptr (d s : list byte) (doff soff n : Z) :
  0 <= doff -> 0 <= soff -> 0 <= n ->
  doff + n <= len_of d -> soff + n <= len_of s ->
  memcpy (Ptr d) doff (Ptr s) soff n
  = Done (Ptr (firstn (Z.to_nat doff) d
               ++ firstn (Z.to_nat n) (skipn (Z.to_nat soff) s)
               ++ skipn (Z.to_nat (doff + n)) d)).
Proof.
  intros Hd Hs Hn Hdn Hsn. unfold memcpy.
  apply Z.leb_le in Hd, Hs, Hn, Hdn, Hsn.
  rewrite Hd, Hs, Hn, Hdn, Hsn. reflexivity.
Qed.

Lemma splice_length (d s : list byte) (doff soff n : Z) :
  0 <= doff -> 0 <= soff -> 0 <= n ->
  doff + n <= len_of d -> soff + n <= len_of s ->
  len_of (firstn (Z.to_nat doff) d
          ++ firstn (Z.to_nat n) (skipn (Z.to_nat soff) s)
          ++ skipn (Z.to_nat (doff + n)) d) = len_of d.
Proof.
  intros. rewrite !length_app, !length_firstn, !length_skipn. lia.
Qed.

Lemma window_flat (st : list byte) (t n : nat) :
  (t + n <= length st)%nat ->
  firstn n (skipn t (st ++ st)) = firstn n (skipn t st).
Proof.
  intros H. rewrite skipn_app, firstn_app, length_skipn.
  replace (n - (length st - t))%nat with 0%nat by lia.
  rewrite firstn_0. apply app_nil_r.
Qed.

Lemma window_wrap (st : list byte) (t n : nat) :
  (t <= length st)%nat -> (length st <= t + n)%nat ->
  firstn n (skipn t (st ++ st))
  = skipn t st ++ firstn (n - (length st - t)) st.
Proof.
  intros Ht Hn. rewrite skipn_app.
  replace (t - length st)%nat with 0%nat by lia. rewrite skipn_O.
  rewrite firstn_app, length_skipn. f_equal.
  apply firstn_all2. rewrite length_skipn. lia.
Qed.

Lemma firstn_plus (l : list byte) (a r : nat) :
  firstn (a + r) l = firstn a l ++ firstn r (skipn a l).
Proof.
  revert l. induction a as [|a IH]; intros [|x l]; cbn;
    rewrite ?firstn_nil; try reflexivity.
  f_equal. apply IH.
Qed.

(** What a window of the storage shows after one [memcpy] into it. *)
Lemma copy_in_once (st d : list byte) (t n : nat) :
  (t + n <= length st)%nat -> (n <= length d)%nat ->
  firstn n (skipn t (firstn t st ++ firstn n (skipn 0 d)
                     ++ skipn (t + n) st))
  = firstn n d.
Proof.
  intros Ht Hn. rewrite skipn_O, skipn_app, length_firstn.
  rewrite skipn_all2 by (rewrite length_firstn; lia).
  replace (t - Nat.min t (length st))%nat with 0%nat by lia.
  rewrite skipn_O. cbn [app]. rewrite firstn_app, length_firstn.
  replace (n - Nat.min n (length d))%nat with 0%nat by lia.
  rewrite firstn_0, app_nil_r. apply firstn_all2.
  rewrite length_firstn. lia.
Qed.

(** The same after the two [memcpy] calls of a transfer that crosses the
    end of the storage. *)
Lemma copy_in_twice (st d : list byte) (t a r : nat) :
  (t <= length st)%nat -> a = (length st - t)%nat -> (r <= t)%nat ->
  (a + r <= length d)%nat ->
  let st1 := firstn t st ++ firstn a (skipn 0 d) ++ skipn (t + a) st in
  let st2 := firstn 0 st1 ++ firstn r (skipn a d) ++ skipn (0 + r) st1 in
  length st2 = length st
  /\ skipn t st2 ++ firstn r st2 = firstn (a + r) d.
Proof.
  intros Ht Ha Hr Hd st1 st2.
  assert (E1 : st1 = firstn t st ++ firstn a d).
  { unfold st1. rewrite skipn_O, skipn_all2 by lia. rewrite app_nil_r.
    reflexivity. }
  assert (L1 : length st1 = length st).
  { rewrite E1, length_app, !length_firstn. lia. }
  assert (E2 : st2 = firstn r (skipn a d) ++ skipn r st1)
    by (unfold st2; rewrite firstn_0; reflexivity).
  assert (Lr : length (firstn r (skipn a d)) = r)
    by (rewrite length_firstn, length_skipn; lia).
  split.
  - rewrite E2, length_app, Lr, length_skipn. lia.
  - rewrite firstn_plus. f_equal.
    + rewrite E2, skipn_app, Lr, skipn_all2 by lia. cbn [app].
      rewrite skipn_skipn.
      replace (t - r + r)%nat with t by lia.
      rewrite E1, skipn_app, length_firstn.
      rewrite skipn_all2 by (rewrite length_firstn; lia).
      replace (t - Nat.min t (length st))%nat with 0%nat by lia.
      reflexivity.
    + rewrite E2, firstn_app, Lr.
      replace (r - r)%nat with 0%nat by lia.
      rewrite firstn_0, app_nil_r. apply firstn_all2. lia.
Qed.

(** A window of the ring is the window of its first part followed by the
    window that starts where the first part ends, at [o2]. *)
Lemma window_split (st : list byte) (off n1 n2 o2 : nat) :
  (off <= length st)%nat -> (n1 + n2 <= length st)%nat ->
  o2 = (off + n1)%nat \/ (o2 + length st = off + n1)%nat ->
  firstn (n1 + n2) (skipn off (st ++ st))
  = firstn n1 (skipn off (st ++ st)) ++ firstn n2 (skipn o2 (st ++ st)).
Proof.
  intros Hoff Hn Ho. rewrite firstn_plus. f_equal. rewrite skipn_skipn.
  destruct Ho as [->|Ho].
  - f_equal. f_equal. lia.
  - replace (n1 + off)%nat with (o2 + length st)%nat by lia.
    rewrite !skipn_app.
    rewrite (skipn_all2 st (n:=o2 + length st)) by lia. cbn [app].
    replace (o2 + length st - length st)%nat with o2 by lia.
    replace (o2 - length st)%nat with 0%nat by lia. rewrite skipn_O.
    rewrite firstn_app, length_skipn.
    replace (n2 - (length st - o2))%nat with 0%nat by lia.
    rewrite firstn_0, app_nil_r. reflexivity.
Qed.

Lemma window_length (st : list byte) (off n : nat) :
  (off <= length st)%nat -> (n <= length st)%nat ->
  length (firstn n (skipn off (st ++ st))) = n.
Proof.
  intros. rewrite length_firstn, length_skipn, length_app. lia.
Qed.

(** One [memcpy] into the storage leaves the rest of the ring as it was. *)
Lemma copy_in_once_rest (st d : list byte) (t n o2 : nat) :
  (t + n <= length st)%nat -> (n <= length d)%nat ->
  o2 = (t + n)%nat \/ (o2 = 0%nat /\ (t + n)%nat = length st) ->
  let st' := firstn t st ++ firstn n (skipn 0 d) ++ skipn (t + n) st in
  firstn (length st - n) (skipn o2 (st' ++ st'))
  = firstn (length st - n) (skipn o2 (st ++ st)).
Proof.
  intros Ht Hn Ho st'.
  assert (L' : length st' = length st).
  { unfold st'. rewrite !length_app, !length_firstn, !length_skipn. lia. }
  assert (Ef : firstn t st' = firstn t st).
  { unfold st'. rewrite firstn_app, length_firstn.
    replace (t - Nat.min t (length st))%nat with 0%nat by lia.
    rewrite firstn_0, app_nil_r, firstn_firstn. f_equal. lia. }
  assert (Es : skipn (t + n) st' = skipn (t + n) st).
  { unfold st'. rewrite skipn_app, length_firstn.
    rewrite skipn_all2 by (rewrite length_firstn; lia). cbn [app].
    rewrite skipn_app, length_firstn, length_skipn.
    rewrite skipn_all2 by (rewrite length_firstn, length_skipn; lia).
    cbn [app].
    replace (t + n - Nat.min t (length st)
             - Nat.min n (length d - 0))%nat with 0%nat by lia.
    reflexivity. }
  destruct Ho as [->|[-> Hfull]].
  - rewrite !window_wrap by lia. rewrite L', Es.
    replace (length st - n - (length st - (t + n)))%nat with t by lia.
    rewrite Ef. reflexivity.
  - rewrite !window_flat by lia. rewrite !skipn_O.
    replace (length st - n)%nat with t by lia. exact Ef.
Qed.

(** The two [memcpy] calls of a put that crosses the end of the storage
    leave the rest of the ring as it was. *)
Lemma copy_in_twice_rest (st d : list byte) (t a r : nat) :
  (t <= length st)%nat -> a = (length st - t)%nat -> (r <= t)%nat ->
  (a + r <= length d)%nat ->
  let st1 := firstn t st ++ firstn a (skipn 0 d) ++ skipn (t + a) st in
  let st2 := firstn 0 st1 ++ firstn r (skipn a d) ++ skipn (0 + r) st1 in
  firstn (t - r) (skipn r (st2 ++ st2)) = firstn (t - r) (skipn r (st ++ st)).
Proof.
  intros Ht Ha Hr Hd st1 st2.
  assert (E1 : st1 = firstn t st ++ firstn a d).
  { unfold st1. rewrite skipn_O, skipn_all2 by lia. rewrite app_nil_r.
    reflexivity. }
  assert (L1 : length st1 = length st).
  { rewrite E1, length_app, !length_firstn. lia. }
  assert (E2 : st2 = firstn r (skipn a d) ++ skipn r st1)
    by (unfold st2; rewrite firstn_0; reflexivity).
  assert (Lr : length (firstn r (skipn a d)) = r)
    by (rewrite length_firstn, length_skipn; lia).
  assert (L2 : length st2 = length st).
  { rewrite E2, length_app, Lr, length_skipn. lia. }
  rewrite !window_flat by lia.
  rewrite E2, skipn_app, Lr, skipn_all2 by lia. cbn [app].
  rewrite skipn_skipn. replace (r - r + r)%nat with r by lia.
  rewrite E1, skipn_app, length_firstn.
  replace (r - Nat.min t (length st))%nat with 0%nat by lia. rewrite skipn_O.
  rewrite firstn_app, length_skipn, length_firstn.
  replace (t - r - (Nat.min t (length st) - r))%nat with 0%nat by lia.
  rewrite firstn_0, app_nil_r.
  rewrite skipn_firstn_comm, firstn_firstn. f_equal. lia.
Qed.

(** The two [memcpy] calls of a transfer that crosses the end of the
    storage, seen from the destination [d]. *)
Lemma copy_out_twice (d st : list byte) (t a r : nat) :
  (t <= length st)%nat -> a = (length st - t)%nat ->
  (a + r <= length d)%nat ->
  let d1 := firstn 0 d ++ firstn a (skipn t st) ++ skipn a d in
  firstn a d1 ++ firstn r (skipn 0 st) ++ skipn (a + r) d1
  = (skipn t st ++ firstn r st) ++ skipn (a + r) d.
Proof.
  intros Ht Ha Hd d1.
  assert (E1 : d1 = skipn t st ++ skipn a d).
  { unfold d1. rewrite firstn_0. cbn [app]. f_equal.
    apply firstn_all2. rewrite length_skipn. lia. }
  assert (La : length (skipn t st) = a) by (rewrite length_skipn; lia).
  rewrite E1, skipn_O, firstn_app, skipn_app, La.
  rewrite (firstn_all2 (skipn t st)) by lia.
  replace (a - a)%nat with 0%nat by lia. rewrite firstn_0, app_nil_r.
  rewrite (skipn_all2 (skipn t st)) by lia. cbn [app].
  rewrite skipn_skipn.
  replace (a + r - a + a)%nat with (a + r)%nat by lia.
  rewrite <- app_assoc. reflexivity.
Qed.

(** ** Outcomes *)

Lemma bind_Done {A B : Type} (m : exec A) (k : A -> exec B) (b : B) :
  bind m k = Done b -> exists a, m = Done a /\ k a = Done b.
Proof. destruct m as [a|]; cbn; [eauto | discriminate]. Qed.

Lemma memcpy_Done (dst src r : ptr) (doff soff n : Z) :
  memcpy dst doff src soff n = Done r ->
  exists d s, dst = Ptr d /\ src = Ptr s /\ r <> NULL.
Proof.
  unfold memcpy. destruct dst as [|d], src as [|s]; try discriminate.
  destruct (_ && _); [|discriminate].
  intros [= <-]. exists d, s. repeat split. discriminate.
Qed.

(** ** Comparisons as the C conditions use them *)

Lemma gtb_true (n m : Z) : m < n -> (n >? m) = true.
Proof. intros. rewrite Z.gtb_ltb. apply Z.ltb_lt. assumption. Qed.

Lemma gtb_false (n m : Z) : n <= m -> (n >? m) = false.
Proof. intros. rewrite Z.gtb_ltb. apply Z.ltb_ge. assumption. Qed.

Lemma geb_true (n m : Z) : m <= n -> (n >=? m) = true.
Proof. intros. rewrite Z.geb_leb. apply Z.leb_le. assumption. Qed.

Lemma geb_false (n m : Z) : n < m -> (n >=? m) = false.
Proof. intros. rewrite Z.geb_leb. apply Z.leb_gt. assumption. Qed.

Section Properties.

Variable size_bits : Z.
Hypothesis size_bits_min : 16 <= size_bits.

Lemma u16_fits : 2 ^ 16 <= 2 ^ size_bits.
Proof. apply Z.pow_le_mono_r; lia. Qed.

Lemma to_size_t_small (x : Z) :
  0 <= x < 2 ^ size_bits -> to_size_t size_bits x = x.
Proof. intros. unfold to_size_t. apply Z.mod_small. assumption. Qed.

Lemma to_size_t_u16 (x : Z) : 0 <= x < 2 ^ 16 -> to_size_t size_bits x = x.
Proof. intros. apply to_size_t_small. pose proof u16_fits. lia. Qed.

Lemma to_u16_small (x : Z) : 0 <= x < 2 ^ 16 -> to_u16 x = x.
Proof. intros. unfold to_u16. apply Z.mod_small. assumption. Qed.

Lemma to_size_t_range (x : Z) : 0 <= to_size_t size_bits x < 2 ^ size_bits.
Proof.
  unfold to_size_t. apply Z.mod_pos_bound.
  pose proof u16_fits. lia.
Qed.

Lemma to_u16_range (x : Z) : 0 <= to_u16 x < 2 ^ 16.
Proof. unfold to_u16. apply Z.mod_pos_bound. lia. Qed.

(** Offsets of cells inside a bound storage stay representable. *)
Lemma cell_offset (rb : RINGBUF_t) (st : list byte) (i : Z) :
  bound_to size_bits rb st -> 0 <= i <= size rb ->
  to_size_t size_bits (i * cell_size rb) = i * cell_size rb
  /\ 0 <= i * cell_size rb <= size rb * cell_size rb.
Proof.
  intros [_ _ Hs Hc Hf] Hi.
  assert (0 <= i * cell_size rb <= size rb * cell_size rb) by nia.
  split; [apply to_size_t_small; lia | assumption].
Qed.

(** ** One call of [RingBuf_DataPut] on a bound buffer *)

Lemma wrap_head (h l s : Z) :
  0 <= h < s -> 0 <= l <= s ->
  (h + l) mod s
  = if l >? s - h then l - (s - h) else if h + l >=? s then 0 else h + l.
Proof.
  intros Hh Hl. destruct (l >? s - h) eqn:E.
  - apply Z.gtb_lt in E. symmetry. apply Z.mod_unique with (q := 1); lia.
  - assert (l <= s - h) by (destruct (Z.gtb_spec l (s - h)); [discriminate | lia]).
    destruct (Z.geb_spec (h + l) s).
    + replace (h + l) with s by lia. apply Z_mod_same_full.
    + apply Z.mod_small. lia.
Qed.

Lemma DataPut_ok (rb : RINGBUF_t) (st d : list byte) (len : Z) :
  bound_to size_bits rb st -> 0 <= head rb < size rb ->
  0 <= len <= size rb -> len * cell_size rb <= len_of d ->
  exists st',
    RingBuf_DataPut size_bits (Ptr d) len rb
    = Done (RINGBUF_OK,
            mkRINGBUF (Ptr st') (tail rb) ((head rb + len) mod size rb)
                      (size rb) (cell_size rb))
    /\ len_of st' = len_of st
    /\ window st' (head rb * cell_size rb) (len * cell_size rb)
       = firstn (Z.to_nat (len * cell_size rb)) d
    /\ window st' ((head rb + len) mod size rb * cell_size rb)
              ((size rb - len) * cell_size rb)
       = window st ((head rb + len) mod size rb * cell_size rb)
                ((size rb - len) * cell_size rb).
Proof.
  intros Hb Hh Hl Hd.
  pose proof (cell_offset rb st (head rb) Hb ltac:(lia)) as [Eh Rh].
  pose proof (cell_offset rb st len Hb ltac:(lia)) as [El Rl].
  pose proof (cell_offset rb st (size rb - head rb) Hb ltac:(lia)) as [Es Rs].
  pose proof (cell_offset rb st 0 Hb ltac:(lia)) as [E0 _].
  pose proof (cell_offset rb st (len - (size rb - head rb)) Hb) as Hrest.
  destruct Hb as [Hbuf Hlen Hsz Hc Hf].
  rewrite (wrap_head _ _ _ Hh Hl).
  unfold RingBuf_DataPut. rewrite Hbuf.
  rewrite (gtb_false len (size rb)) by lia.
  rewrite (to_size_t_u16 (size rb - head rb)) by lia.
  destruct (len >? size rb - head rb) eqn:E.
  - apply Z.gtb_lt in E.
    destruct Hrest as [Er Rr]; [lia|].
    rewrite ?Hbuf, Eh, E0, Es.
    rewrite memcpy_Ptr by lia.
    cbn [bind set_head set_buf buf head tail size cell_size].
    rewrite (to_size_t_u16 (len - _)) by lia.
    rewrite to_u16_small by lia.
    rewrite E0, Es, Er.
    rewrite memcpy_Ptr;
      try (rewrite splice_length by lia); try lia.
    cbn [bind set_head set_buf buf head tail size cell_size].
    rewrite Z.add_0_l, to_size_t_u16 by lia.
    rewrite geb_false by lia.
    eexists. split; [reflexivity|].
    set (t := Z.to_nat (head rb * cell_size rb)).
    set (a := Z.to_nat ((size rb - head rb) * cell_size rb)).
    set (r := Z.to_nat ((len - (size rb - head rb)) * cell_size rb)).
    replace (Z.to_nat (0 * cell_size rb)) with 0%nat by lia.
    replace (Z.to_nat (head rb * cell_size rb
                       + (size rb - head rb) * cell_size rb))
      with (t + a)%nat by lia.
    replace (Z.to_nat (0 * cell_size rb
                       + (len - (size rb - head rb)) * cell_size rb))
      with (0 + r)%nat by lia.
    destruct (copy_in_twice st d t a r) as [L W]; try lia.
    pose proof (copy_in_twice_rest st d t a r) as F. cbv zeta in F.
    split; [lia|]. split.
    + unfold window. fold t.
      replace (Z.to_nat (len * cell_size rb)) with (a + r)%nat by lia.
      rewrite window_wrap by lia. rewrite <- W. do 2 f_equal. lia.
    + unfold window. fold r.
      replace (Z.to_nat ((size rb - len) * cell_size rb))
        with (t - r)%nat by lia.
      apply F; lia.
  - assert (len <= size rb - head rb)
      by (destruct (Z.gtb_spec len (size rb - head rb)); [discriminate | lia]).
    assert (0 <= (head rb + len) * cell_size rb <= size rb * cell_size rb) by nia.
    cbn [bind]. rewrite ?Hbuf, Eh, E0, El.
    rewrite memcpy_Ptr by lia.
    cbn [bind set_head set_buf buf head tail size cell_size].
    rewrite to_size_t_u16 by lia.
    assert (W : forall st' o2,
               st' = firstn (Z.to_nat (head rb * cell_size rb)) st
                     ++ firstn (Z.to_nat (len * cell_size rb))
                          (skipn (Z.to_nat (0 * cell_size rb)) d)
                     ++ skipn (Z.to_nat (head rb * cell_size rb
                                         + len * cell_size rb)) st ->
               o2 = head rb + len \/ (o2 = 0 /\ head rb + len = size rb) ->
               len_of st' = len_of st
               /\ window st' (head rb * cell_size rb) (len * cell_size rb)
                  = firstn (Z.to_nat (len * cell_size rb)) d
               /\ window st' (o2 * cell_size rb) ((size rb - len) * cell_size rb)
                  = window st (o2 * cell_size rb)
                           ((size rb - len) * cell_size rb)).
    { intros st' o2 -> Ho.
      replace (Z.to_nat (0 * cell_size rb)) with 0%nat by lia.
      replace (Z.to_nat (head rb * cell_size rb + len * cell_size rb))
        with (Z.to_nat (head rb * cell_size rb)
              + Z.to_nat (len * cell_size rb))%nat by lia.
      split; [|split].
      - rewrite !length_app, !length_firstn, !length_skipn. lia.
      - unfold window.
        rewrite window_flat
          by (rewrite !length_app, !length_firstn, !length_skipn; lia).
        apply copy_in_once; lia.
      - unfold window.
        replace (Z.to_nat ((size rb - len) * cell_size rb))
          with (length st - Z.to_nat (len * cell_size rb))%nat by lia.
        apply copy_in_once_rest; lia. }
    destruct (Z.geb_spec (head rb + len) (size rb));
      (eexists; split; [reflexivity | apply W; [reflexivity | lia]]).
Qed.

(** ** One call of [RingBuf_DataWatch] on a bound buffer *)

Lemma DataWatch_ok (rb : RINGBUF_t) (st d : list byte) (len : Z) :
  bound_to size_bits rb st -> 0 <= tail rb < size rb ->
  0 <= len <= size rb -> len * cell_size rb <= len_of d ->
  RingBuf_DataWatch size_bits (Ptr d) len rb
  = Done (RINGBUF_OK, rb,
          Ptr (window st (tail rb * cell_size rb) (len * cell_size rb)
               ++ skipn (Z.to_nat (len * cell_size rb)) d)).
Proof.
  intros Hb Ht Hl Hd.
  pose proof (cell_offset rb st (tail rb) Hb ltac:(lia)) as [Et Rt].
  pose proof (cell_offset rb st len Hb ltac:(lia)) as [El Rl].
  pose proof (cell_offset rb st (size rb - tail rb) Hb ltac:(lia)) as [Es Rs].
  pose proof (cell_offset rb st 0 Hb ltac:(lia)) as [E0 _].
  pose proof (cell_offset rb st (len - (size rb - tail rb)) Hb) as Hrest.
  destruct Hb as [Hbuf Hlen Hsz Hc Hf].
  unfold RingBuf_DataWatch, window.
  rewrite (gtb_false len (size rb)) by lia.
  rewrite (to_size_t_u16 (size rb - tail rb)) by lia.
  rewrite (to_u16_small (size rb - tail rb)), (to_u16_small (tail rb)) by lia.
  rewrite Hbuf.
  destruct (len >? size rb - tail rb) eqn:E.
  - apply Z.gtb_lt in E.
    destruct Hrest as [Er Rr]; [lia|].
    rewrite Et, E0, Es.
    rewrite memcpy_Ptr by lia.
    cbn [bind]. rewrite to_u16_small by lia. rewrite E0, Es, Er.
    rewrite memcpy_Ptr; try (rewrite splice_length by lia); try lia.
    cbn [bind]. do 3 f_equal.
    replace (Z.to_nat (0 * cell_size rb)) with 0%nat by lia.
    replace (Z.to_nat (0 * cell_size rb + (size rb - tail rb) * cell_size rb))
      with (Z.to_nat ((size rb - tail rb) * cell_size rb)) by lia.
    replace (Z.to_nat ((size rb - tail rb) * cell_size rb
                       + (len - (size rb - tail rb)) * cell_size rb))
      with (Z.to_nat ((size rb - tail rb) * cell_size rb)
            + Z.to_nat ((len - (size rb - tail rb)) * cell_size rb))%nat by lia.
    rewrite copy_out_twice by lia.
    rewrite window_wrap by lia.
    replace (Z.to_nat (len * cell_size rb)) with
      (Z.to_nat ((size rb - tail rb) * cell_size rb)
       + Z.to_nat ((len - (size rb - tail rb)) * cell_size rb))%nat by lia.
    do 3 f_equal. lia.
  - assert (len <= size rb - tail rb)
      by (destruct (Z.gtb_spec len (size rb - tail rb)); [discriminate | lia]).
    assert (0 <= (tail rb + len) * cell_size rb <= size rb * cell_size rb) by nia.
    cbn [bind]. rewrite Et, E0, El.
    rewrite memcpy_Ptr by lia.
    cbn [bind]. do 3 f_equal.
    replace (Z.to_nat (0 * cell_size rb)) with 0%nat by lia.
    rewrite firstn_0, Z.add_0_l. cbn [app].
    rewrite window_flat by lia. reflexivity.
Qed.

(** ** One call of [RingBuf_DataRead] on a bound buffer *)

Lemma DataRead_ok (rb : RINGBUF_t) (st d : list byte) (len : Z) :
  bound_to size_bits rb st -> 0 <= tail rb < size rb ->
  0 <= len <= size rb -> len * cell_size rb <= len_of d ->
  RingBuf_DataRead size_bits (Ptr d) len rb
  = Done (RINGBUF_OK,
          set_tail rb (if to_size_t size_bits (tail rb + len) >=? size rb
                       then 0 else to_size_t size_bits (tail rb + len)),
          Ptr (window st (tail rb * cell_size rb) (len * cell_size rb)
               ++ skipn (Z.to_nat (len * cell_size rb)) d)).
Proof.
  intros Hb Ht Hl Hd. unfold RingBuf_DataRead.
  rewrite (DataWatch_ok rb st d len Hb Ht Hl Hd).
  destruct Hb as [Hbuf Hlen Hsz Hc Hf]. rewrite Hbuf.
  cbn [bind RINGBUF_STATUS_eqb negb set_tail tail size].
  destruct (to_size_t size_bits (tail rb + len) >=? size rb); reflexivity.
Qed.

(** [RingBuf_DataRead] on a bound buffer has the outcome of
    [RingBuf_DataWatch]: the same status and the same output object, or
    undefined behaviour when the watch has it. *)
Lemma DataRead_as_watch (data : ptr) (len : Z) (rb : RINGBUF_t) :
  buf rb <> NULL ->
  match RingBuf_DataWatch size_bits data len rb with
  | Done (st, _, out) =>
      exists rb', RingBuf_DataRead size_bits data len rb = Done (st, rb', out)
  | Undef => RingBuf_DataRead size_bits data len rb = Undef
  end.
Proof.
  intros Hbuf. unfold RingBuf_DataRead. destruct (buf rb); [contradiction|].
  destruct (RingBuf_DataWatch size_bits data len rb) as [[[st rb1] out]|];
    [|reflexivity].
  cbn [bind]. destruct (negb _); eauto.
Qed.

(** A read that runs past the end of the storage puts [tail] at 0, which is
    not [tail + len] modulo the capacity. *)
Lemma DataRead_tail_crossing (rb : RINGBUF_t) (st d : list byte) (len : Z) :
  bound_to size_bits rb st -> 0 <= tail rb < size rb ->
  0 <= len <= size rb -> len * cell_size rb <= len_of d ->
  size rb < tail rb + len < 2 ^ size_bits ->
  exists rb' out,
    RingBuf_DataRead size_bits (Ptr d) len rb = Done (RINGBUF_OK, rb', out)
    /\ tail rb' = 0
    /\ (tail rb + len) mod size rb = tail rb + len - size rb
    /\ 0 < tail rb + len - size rb.
Proof.
  intros Hb Ht Hl Hd Hx. do 2 eexists. split; [|split; [|split]].
  - apply DataRead_ok; eassumption.
  - cbn [set_tail tail]. rewrite to_size_t_small by lia.
    rewrite geb_true by lia. reflexivity.
  - symmetry. apply Z.mod_unique with (q := 1); lia.
  - lia.
Qed.

(** X3: What one put wrote, one read returns, also when the cells lie across
    the end of the storage. *)
Lemma put_then_read (rb : RINGBUF_t) (st d o : list byte) (len : Z) :
  bound_to size_bits rb st -> idx_ok rb -> head rb = tail rb ->
  0 <= len <= size rb ->
  len * cell_size rb <= len_of d -> len * cell_size rb <= len_of o ->
  exists rb1 rb2,
    RingBuf_DataPut size_bits (Ptr d) len rb = Done (RINGBUF_OK, rb1)
    /\ RingBuf_DataRead size_bits (Ptr o) len rb1
       = Done (RINGBUF_OK, rb2,
               Ptr (firstn (Z.to_nat (len * cell_size rb)) d
                    ++ skipn (Z.to_nat (len * cell_size rb)) o)).
Proof.
  intros Hb [Hh Ht] E Hl Hd Ho.
  destruct (DataPut_ok rb st d len Hb Hh Hl Hd) as (st1 & E1 & L1 & W1 & _).
  set (rb1 := mkRINGBUF (Ptr st1) (tail rb) ((head rb + len) mod size rb)
                        (size rb) (cell_size rb)) in *.
  assert (Hb1 : bound_to size_bits rb1 st1).
  { destruct Hb. constructor; cbn; try assumption; try reflexivity. lia. }
  exists rb1. eexists. split; [exact E1|].
  rewrite (DataRead_ok rb1 st1 o len Hb1 Ht Hl Ho).
  cbn [rb1 tail cell_size]. rewrite <- E, W1. reflexivity.
Qed.

(** ** What a call can change in the record *)

Lemma DataPut_frame (data : ptr) (len : Z) (rb rb' : RINGBUF_t)
      (st : RINGBUF_STATUS) :
  RingBuf_DataPut size_bits data len rb = Done (st, rb') ->
  tail rb' = tail rb /\ size rb' = size rb /\ cell_size rb' = cell_size rb
  /\ (rb' = rb /\ st <> RINGBUF_OK
      \/ st = RINGBUF_OK /\ buf rb' <> NULL
         /\ (0 < size rb -> 0 <= head rb' < size rb)).
Proof.
  unfold RingBuf_DataPut. destruct (buf rb) as [|s0] eqn:Hbuf.
  { intros [= <- <-]. intuition discriminate. }
  destruct (len >? size rb).
  { intros [= <- <-]. intuition discriminate. }
  intros H. apply bind_Done in H as [[[rb1 s_addr] len1] [H1 H2]].
  assert (F1 : tail rb1 = tail rb /\ size rb1 = size rb
               /\ cell_size rb1 = cell_size rb).
  { destruct (len >? _).
    - apply bind_Done in H1 as [b [_ [= <- _ _]]]. auto.
    - injection H1 as <- _ _. auto. }
  destruct F1 as (Ft & Fs & Fc).
  apply bind_Done in H2 as [b [Hm H2]].
  apply memcpy_Done in Hm as (_ & _ & _ & _ & Hb).
  injection H2 as <- <-.
  cbn [set_head set_buf head size].
  pose proof (to_size_t_range (head rb1 + len1)) as Hr.
  destruct (Z.geb_spec (to_size_t size_bits (head rb1 + len1)) (size rb1));
    cbn [set_head set_buf buf head tail size cell_size];
    (repeat split; try assumption; right; repeat split; try assumption; lia).
Qed.

Lemma BytePut_frame (data : byte) (rb rb' : RINGBUF_t) (st : RINGBUF_STATUS) :
  RingBuf_BytePut size_bits data rb = Done (st, rb') ->
  tail rb' = tail rb /\ size rb' = size rb /\ cell_size rb' = cell_size rb
  /\ (rb' = rb /\ st <> RINGBUF_OK
      \/ st = RINGBUF_OK /\ (0 < size rb -> 0 <= head rb' < size rb)).
Proof.
  unfold RingBuf_BytePut. destruct (buf rb) as [|s0] eqn:Hbuf.
  { intros [= <- <-]. intuition discriminate. }
  intros H. apply bind_Done in H as [b [_ H]].
  injection H as <- <-.
  cbn [set_head set_buf head size].
  pose proof (to_size_t_range (head rb + 1)) as Hr.
  destruct (Z.geb_spec (to_size_t size_bits (head rb + 1)) (size rb));
    cbn [set_head set_buf buf head tail size cell_size];
    (repeat split; right; split; [reflexivity | lia]).
Qed.

Lemma DataWatch_frame (data out : ptr) (len : Z) (rb rb' : RINGBUF_t)
      (st : RINGBUF_STATUS) :
  RingBuf_DataWatch size_bits data len rb = Done (st, rb', out) -> rb' = rb.
Proof.
  unfold RingBuf_DataWatch. destruct data as [|d].
  { intros [= _ <- _]. reflexivity. }
  destruct (len >? size rb).
  { intros [= _ <- _]. reflexivity. }
  intros H. apply bind_Done in H as [[[[d1 lt] sa] l1] [_ H]].
  apply bind_Done in H as [d2 [_ H]].
  injection H as _ <- _. reflexivity.
Qed.

Lemma ByteWatch_frame (data out : ptr) (rb rb' : RINGBUF_t)
      (st : RINGBUF_STATUS) :
  RingBuf_ByteWatch data rb = Done (st, rb', out) -> rb' = rb.
Proof.
  unfold RingBuf_ByteWatch. destruct data as [|d].
  { intros [= _ <- _]. reflexivity. }
  intros H. apply bind_Done in H as [b [_ H]].
  apply bind_Done in H as [d2 [_ H]].
  injection H as _ <- _. reflexivity.
Qed.

Lemma DataRead_frame (data out : ptr) (len : Z) (rb rb' : RINGBUF_t)
      (st : RINGBUF_STATUS) :
  RingBuf_DataRead size_bits data len rb = Done (st, rb', out) ->
  head rb' = head rb /\ size rb' = size rb /\ cell_size rb' = cell_size rb
  /\ buf rb' = buf rb
  /\ (rb' = rb /\ st <> RINGBUF_OK
      \/ st = RINGBUF_OK /\ (0 < size rb -> 0 <= tail rb' < size rb)).
Proof.
  unfold RingBuf_DataRead. destruct (buf rb) as [|s0] eqn:Hbuf.
  { intros [= <- <- _]. rewrite Hbuf. intuition discriminate. }
  intros H. apply bind_Done in H as [[[st1 rb1] out1] [Hw H]].
  apply DataWatch_frame in Hw as ->.
  pose proof (to_size_t_range (tail rb + len)) as Hr.
  destruct st1; cbn [RINGBUF_STATUS_eqb negb] in H; injection H as <- <- _;
    try (rewrite Hbuf; intuition discriminate).
  cbn [set_tail tail size].
  destruct (Z.geb_spec (to_size_t size_bits (tail rb + len)) (size rb));
    cbn [set_tail buf head tail size cell_size];
    (repeat split; try assumption; right; split; [reflexivity | lia]).
Qed.

Lemma ByteRead_frame (data out : ptr) (rb rb' : RINGBUF_t)
      (st : RINGBUF_STATUS) :
  RingBuf_ByteRead size_bits data rb = Done (st, rb', out) ->
  head rb' = head rb /\ size rb' = size rb /\ cell_size rb' = cell_size rb
  /\ buf rb' = buf rb
  /\ (rb' = rb /\ st <> RINGBUF_OK
      \/ st = RINGBUF_OK /\ (0 < size rb -> 0 <= tail rb' < size rb)).
Proof.
  unfold RingBuf_ByteRead. destruct (buf rb) as [|s0] eqn:Hbuf.
  { intros [= <- <- _]. rewrite Hbuf. intuition discriminate. }
  intros H. apply bind_Done in H as [[[st1 rb1] out1] [Hw H]].
  apply ByteWatch_frame in Hw as ->.
  pose proof (to_size_t_range (tail rb + 1)) as Hr.
  destruct st1; cbn [RINGBUF_STATUS_eqb negb] in H; injection H as <- <- _;
    try (rewrite Hbuf; intuition discriminate).
  cbn [set_tail tail size].
  destruct (Z.geb_spec (to_size_t size_bits (tail rb + 1)) (size rb));
    cbn [set_tail buf head tail size cell_size];
    (repeat split; try assumption; right; split; [reflexivity | lia]).
Qed.

(** ** [RingBuf_Available] is the distance from [tail] to [head] *)

Lemma Available_mod (rb : RINGBUF_t) (st : list byte) (len : Z) :
  bound_to size_bits rb st -> idx_ok rb ->
  RingBuf_Available size_bits len rb
  = (RINGBUF_OK, rb, (head rb - tail rb) mod size rb).
Proof.
  intros [Hbuf _ Hsz _ _] [Hh Ht]. unfold RingBuf_Available. rewrite Hbuf.
  destruct (Z.ltb_spec (head rb) (tail rb)).
  - rewrite (to_size_t_u16 (size rb - tail rb)) by lia.
    rewrite to_size_t_u16, to_u16_small by lia.
    f_equal. apply Z.mod_unique with (q := -1); lia.
  - rewrite to_size_t_u16, to_u16_small by lia.
    f_equal. symmetry. apply Z.mod_small. lia.
Qed.

(** ** Runs of calls *)

Lemma total_nonneg (cell : Z) (calls : list (ptr * Z)) :
  Forall (args_hold cell) calls -> 0 <= total calls.
Proof.
  induction 1 as [|c calls [Hc _] _ IH]; unfold total in *; cbn; lia.
Qed.

Lemma put_all_ok (calls : list (ptr * Z)) :
  forall (rb : RINGBUF_t) (st : list byte),
    bound_to size_bits rb st -> 0 <= head rb < size rb ->
    Forall (args_hold (cell_size rb)) calls -> total calls <= size rb ->
    exists st',
      put_all size_bits calls rb
      = Done (map (fun _ => RINGBUF_OK) calls,
              mkRINGBUF (Ptr st') (tail rb)
                        ((head rb + total calls) mod size rb)
                        (size rb) (cell_size rb))
      /\ len_of st' = len_of st.
Proof.
  induction calls as [|[data len] calls IH]; intros rb st Hb Hh Hargs Htot.
  - exists st. split; [|reflexivity]. cbn.
    rewrite Z.add_0_r, Z.mod_small by lia.
    destruct Hb as [Hbuf _ _ _ _]. destruct rb; cbn in *. subst. reflexivity.
  - apply Forall_cons_iff in Hargs as [[Hl (d & Hp & Hd)] Hrest].
    cbn [fst snd] in Hl, Hp, Hd. subst data.
    pose proof (total_nonneg _ _ Hrest) as Hnn.
    cbn [total fold_right snd] in Htot. fold (total calls) in Htot.
    destruct (DataPut_ok rb st d len Hb Hh ltac:(lia) Hd) as (st1 & E1 & L1).
    set (rb1 := mkRINGBUF (Ptr st1) (tail rb) ((head rb + len) mod size rb)
                          (size rb) (cell_size rb)) in *.
    assert (Hb1 : bound_to size_bits rb1 st1).
    { destruct Hb. constructor; cbn; try assumption; try reflexivity. lia. }
    assert (Hh1 : 0 <= head rb1 < size rb1)
      by (cbn; apply Z.mod_pos_bound; lia).
    destruct (IH rb1 st1 Hb1 Hh1 Hrest ltac:(cbn; lia)) as (st2 & E2 & L2).
    exists st2. split; [|lia].
    cbn [put_all]. rewrite E1. cbn [bind]. rewrite E2. cbn [bind map].
    cbn [rb1 tail head size cell_size].
    rewrite Z.add_mod_idemp_l by lia.
    cbn [total fold_right snd]. fold (total calls).
    rewrite Z.add_assoc. reflexivity.
Qed.

Lemma read_all_ok (calls : list (ptr * Z)) :
  forall (rb : RINGBUF_t) (st : list byte),
    bound_to size_bits rb st -> 0 <= tail rb < size rb ->
    Forall (args_hold (cell_size rb)) calls ->
    tail rb + total calls <= size rb ->
    exists outs,
      read_all size_bits calls rb
      = Done (outs, set_tail rb ((tail rb + total calls) mod size rb))
      /\ map fst outs = map (fun _ => RINGBUF_OK) calls.
Proof.
  induction calls as [|[data len] calls IH]; intros rb st Hb Ht Hargs Htot.
  - exists []. split; [|reflexivity]. cbn.
    rewrite Z.add_0_r, Z.mod_small by lia.
    destruct rb; reflexivity.
  - apply Forall_cons_iff in Hargs as [[Hl (d & Hp & Hd)] Hrest].
    cbn [fst snd] in Hl, Hp, Hd. subst data.
    pose proof (total_nonneg _ _ Hrest) as Hnn.
    cbn [total fold_right snd] in Htot. fold (total calls) in Htot.
    pose proof (DataRead_ok rb st d len Hb Ht ltac:(lia) Hd) as E1.
    pose proof (bound_size _ _ _ Hb) as Hsz.
    rewrite (to_size_t_u16 (tail rb + len)) in E1 by lia.
    assert (Ew : (if tail rb + len >=? size rb then 0 else tail rb + len)
                 = (tail rb + len) mod size rb).
    { rewrite (wrap_head (tail rb) len (size rb)) by lia.
      rewrite gtb_false by lia. reflexivity. }
    rewrite Ew in E1.
    set (rb1 := set_tail rb ((tail rb + len) mod size rb)) in *.
    assert (Hb1 : bound_to size_bits rb1 st).
    { destruct Hb. constructor; cbn; assumption. }
    assert (Ht1 : 0 <= tail rb1 < size rb1)
      by (cbn; apply Z.mod_pos_bound; lia).
    assert (Htot1 : tail rb1 + total calls <= size rb1).
    { cbn. rewrite <- Ew. destruct (Z.geb_spec (tail rb + len) (size rb)); lia. }
    destruct (IH rb1 st Hb1 Ht1 Hrest Htot1) as (outs & E2 & M2).
    eexists. split.
    + cbn [read_all]. rewrite E1. cbn [bind]. rewrite E2. cbn [bind].
      cbn [rb1 set_tail tail head size cell_size buf].
      rewrite Z.add_mod_idemp_l by lia.
      cbn [total fold_right snd]. fold (total calls).
      rewrite Z.add_assoc. reflexivity.
    + cbn [map fst]. rewrite M2. reflexivity.
Qed.

Lemma Available_same (rb : RINGBUF_t) (len : Z) :
  buf rb <> NULL -> head rb = tail rb ->
  RingBuf_Available size_bits len rb = (RINGBUF_OK, rb, 0).
Proof.
  intros Hb E. unfold RingBuf_Available.
  destruct (buf rb); [contradiction|].
  rewrite E, Z.ltb_irrefl, Z.sub_diag. reflexivity.
Qed.

(** A buffer of no cells accepts transfers of no cells and stays as it is. *)
Lemma DataPut_nothing (rb : RINGBUF_t) (st d : list byte) :
  bound_to size_bits rb st -> size rb = 0 -> head rb = 0 ->
  RingBuf_DataPut size_bits (Ptr d) 0 rb = Done (RINGBUF_OK, rb).
Proof.
  intros [Hbuf Hlen _ _ _] Hs Hh.
  destruct rb as [b t h s c]. cbn in Hbuf, Hlen, Hs, Hh. subst b h s.
  assert (Z0 : forall x, to_size_t size_bits (0 * x) = 0).
  { intros x. unfold to_size_t. rewrite Z.mul_0_l. apply Z.mod_0_l.
    pose proof u16_fits. lia. }
  pose proof (Z0 0) as Z1. rewrite Z.mul_0_l in Z1.
  unfold RingBuf_DataPut.
  cbn [buf head tail size cell_size set_head set_buf Z.gtb Z.compare Z.sub
       Z.opp Z.add bind].
  rewrite Z1. cbn [Z.gtb Z.compare bind buf head cell_size]. rewrite !Z0.
  rewrite memcpy_Ptr by lia.
  cbn [bind Z.add Z.to_nat firstn skipn app size set_head set_buf buf tail
       head cell_size].
  rewrite Z1. reflexivity.
Qed.

Lemma put_all_nothing (calls : list (ptr * Z)) (rb : RINGBUF_t)
      (st : list byte) :
  bound_to size_bits rb st -> size rb = 0 -> head rb = 0 ->
  Forall (args_hold (cell_size rb)) calls -> total calls = 0 ->
  put_all size_bits calls rb = Done (map (fun _ => RINGBUF_OK) calls, rb).
Proof.
  intros Hb Hs Hh. induction calls as [|[data len] calls IH]; intros Hargs Htot.
  - reflexivity.
  - apply Forall_cons_iff in Hargs as [[Hl (d & Hp & Hd)] Hrest].
    cbn [fst snd] in Hl, Hp, Hd. subst data.
    pose proof (total_nonneg _ _ Hrest) as Hnn.
    cbn [total fold_right snd] in Htot. fold (total calls) in Htot.
    assert (len = 0) by lia. subst len.
    cbn [put_all]. rewrite (DataPut_nothing rb st d Hb Hs Hh). cbn [bind].
    rewrite IH by (assumption || lia). reflexivity.
Qed.

(** ** Accounting of occupied cells *)

(** C9: on a freshly cleared bound buffer ([head = tail = 0]), a run of
    put_many calls of exactly [capacity] cells in total, with no reads in
    between, succeeds and leaves available() at 0, the value available()
    returns on the freshly cleared buffer. *)
Theorem full_reads_as_empty (rb : RINGBUF_t) (st : list byte)
        (puts : list (ptr * Z)) (len0 : Z) :
  bound_to size_bits rb st -> head rb = 0 -> tail rb = 0 ->
  Forall (args_hold (cell_size rb)) puts -> total puts = size rb ->
  exists rb1,
    put_all size_bits puts rb = Done (map (fun _ => RINGBUF_OK) puts, rb1)
    /\ RingBuf_Available size_bits len0 rb1 = (RINGBUF_OK, rb1, 0)
    /\ RingBuf_Available size_bits len0 rb = (RINGBUF_OK, rb, 0).
Proof.
  intros Hb Hh Ht Hputs Htot.
  pose proof (bound_size _ _ _ Hb) as Hsz.
  assert (Hbuf : buf rb <> NULL)
    by (rewrite (bound_buf _ _ _ Hb); discriminate).
  destruct (Z.eq_dec (size rb) 0) as [Hz|Hnz].
  - exists rb. rewrite (put_all_nothing puts rb st Hb Hz Hh Hputs) by lia.
    rewrite Available_same by (assumption || lia). auto.
  - destruct (put_all_ok puts rb st Hb ltac:(lia) Hputs ltac:(lia))
      as (st1 & E1 & _).
    eexists. split; [exact E1|]. split.
    + apply Available_same; [discriminate|]. cbn.
      rewrite Hh, Ht, Htot, Z.add_0_l. apply Z_mod_same_full.
    + apply Available_same; [assumption | lia].
Qed.

(** ** Reading without regard to occupancy *)

(** C10: on a bound buffer with [tail] in range, for a non-null output
    pointer to room for [len] cells and [0 < len <= capacity], watch_many
    and read_many return Ok whatever [head] is, hence also when available()
    is below [len] or the buffer is empty, and the output receives the bytes
    the storage holds from cell [tail] on, wrapping at its end. *)
Theorem watch_read_ignore_occupancy (rb : RINGBUF_t) (st d : list byte)
        (len : Z) :
  bound_to size_bits rb st -> 0 <= tail rb < size rb ->
  0 < len <= size rb -> len * cell_size rb <= len_of d ->
  let out := Ptr (window st (tail rb * cell_size rb) (len * cell_size rb)
                  ++ skipn (Z.to_nat (len * cell_size rb)) d) in
  RingBuf_DataWatch size_bits (Ptr d) len rb = Done (RINGBUF_OK, rb, out)
  /\ exists rb',
       RingBuf_DataRead size_bits (Ptr d) len rb = Done (RINGBUF_OK, rb', out).
Proof.
  intros Hb Ht Hl Hd out. split.
  - apply DataWatch_ok; (assumption || lia).
  - eexists. apply DataRead_ok; (assumption || lia).
Qed.

(** ** The storage along a put *)

Lemma memcpy_length (d : list byte) (src r : ptr) (doff soff n : Z) :
  memcpy (Ptr d) doff src soff n = Done r ->
  exists d', r = Ptr d' /\ len_of d' = len_of d.
Proof.
  unfold memcpy. destruct src as [|s0]; [discriminate|].
  destruct (_ && _) eqn:C; [|discriminate].
  apply andb_prop in C as [C C5]. apply andb_prop in C as [C C4].
  apply andb_prop in C as [C C3]. apply andb_prop in C as [C1 C2].
  apply Z.leb_le in C1, C2, C3, C4, C5.
  intros [= <-]. eexists. split; [reflexivity|]. apply splice_length; lia.
Qed.

Lemma store_length (d : list byte) (r : ptr) (i : Z) (b : byte) :
  store (Ptr d) i b = Done r -> exists d', r = Ptr d' /\ len_of d' = len_of d.
Proof.
  unfold store. destruct (_ && _) eqn:C; [|discriminate].
  apply andb_prop in C as [C1 C2]. apply Z.leb_le in C1. apply Z.ltb_lt in C2.
  intros [= <-]. eexists. split; [reflexivity|].
  rewrite length_app, length_firstn. cbn [length]. rewrite length_skipn. lia.
Qed.

Lemma DataPut_binding (data : ptr) (len : Z) (rb rb' : RINGBUF_t)
      (s : RINGBUF_STATUS) (st : list byte) :
  buf rb = Ptr st ->
  RingBuf_DataPut size_bits data len rb = Done (s, rb') ->
  exists st', buf rb' = Ptr st' /\ len_of st' = len_of st.
Proof.
  intros Hbuf. unfold RingBuf_DataPut. rewrite Hbuf.
  destruct (len >? size rb). { intros [= _ <-]. eauto. }
  intros H. apply bind_Done in H as [[[rb1 sa] l1] [H1 H]].
  assert (B1 : exists st1, buf rb1 = Ptr st1 /\ len_of st1 = len_of st).
  { destruct (len >? _).
    - apply bind_Done in H1 as [b [Hm [= <- _ _]]]. rewrite ?Hbuf in Hm.
      apply memcpy_length in Hm as (d' & -> & L). cbn. eauto.
    - injection H1 as <- _ _. eauto. }
  destruct B1 as (st1 & Hb1 & L1).
  apply bind_Done in H as [b [Hm [= _ <-]]]. rewrite Hb1 in Hm.
  apply memcpy_length in Hm as (d' & -> & L).
  exists d'. split; [|lia].
  match goal with |- context [if ?c then _ else _] => destruct c end;
    reflexivity.
Qed.

Lemma BytePut_binding (data : byte) (rb rb' : RINGBUF_t)
      (s : RINGBUF_STATUS) (st : list byte) :
  buf rb = Ptr st ->
  RingBuf_BytePut size_bits data rb = Done (s, rb') ->
  exists st', buf rb' = Ptr st' /\ len_of st' = len_of st.
Proof.
  intros Hbuf. unfold RingBuf_BytePut. rewrite Hbuf.
  intros H. apply bind_Done in H as [b [Hs [= _ <-]]].
  apply store_length in Hs as (d' & -> & L).
  exists d'. split; [|lia].
  match goal with |- context [if ?c then _ else _] => destruct c end;
    reflexivity.
Qed.

(** ** Frame properties *)

(** C7: on a bound buffer, a put_many that returns Ok changes [head] and
    the bytes of the storage and nothing else: [tail], capacity and cell
    size are as they were and the storage has the length it had; a
    read_many that returns Ok changes [tail] and nothing else: [head],
    capacity, cell size and the storage are as they were; and watch_many
    leaves the whole record as it was, so that available() after the watch
    returns what it returned before and a read_many right after the watch
    returns the data the watch returned.  With the storage, the indices and
    the arguments well formed, the three calls do return Ok, and watch and
    read deliver the same cells [w] whatever their destination objects. *)
Theorem transfers_frame (rb : RINGBUF_t) :
  buf rb <> NULL ->
  (forall data len rb',
      RingBuf_DataPut size_bits data len rb = Done (RINGBUF_OK, rb') ->
      tail rb' = tail rb /\ size rb' = size rb
      /\ cell_size rb' = cell_size rb
      /\ (forall sto, buf rb = Ptr sto ->
                      exists sto', buf rb' = Ptr sto'
                                   /\ len_of sto' = len_of sto))
  /\ (forall data len rb' out,
         RingBuf_DataRead size_bits data len rb = Done (RINGBUF_OK, rb', out) ->
         head rb' = head rb /\ size rb' = size rb
         /\ cell_size rb' = cell_size rb /\ buf rb' = buf rb)
  /\ (forall data len st rb' out len0,
         RingBuf_DataWatch size_bits data len rb = Done (st, rb', out) ->
         rb' = rb /\ head rb' = head rb /\ tail rb' = tail rb
         /\ RingBuf_Available size_bits len0 rb'
            = RingBuf_Available size_bits len0 rb
         /\ (st = RINGBUF_OK ->
             exists rb'',
               RingBuf_DataRead size_bits data len rb'
               = Done (RINGBUF_OK, rb'', out)))
  /\ (forall sto d d' len,
         bound_to size_bits rb sto -> idx_ok rb -> 0 <= len <= size rb ->
         len * cell_size rb <= len_of d -> len * cell_size rb <= len_of d' ->
         (exists rb', RingBuf_DataPut size_bits (Ptr d) len rb
                      = Done (RINGBUF_OK, rb'))
         /\ exists w rb',
             RingBuf_DataWatch size_bits (Ptr d) len rb
             = Done (RINGBUF_OK, rb,
                     Ptr (w ++ skipn (Z.to_nat (len * cell_size rb)) d))
             /\ RingBuf_DataRead size_bits (Ptr d') len rb
                = Done (RINGBUF_OK, rb',
                        Ptr (w ++ skipn (Z.to_nat (len * cell_size rb)) d'))).
Proof.
  intros Hbuf. repeat apply conj.
  - intros data len rb' H.
    pose proof (DataPut_frame _ _ _ _ _ H) as (Et & Es & Ec & _).
    repeat split; try assumption.
    intros sto Hsto. exact (DataPut_binding _ _ _ _ _ _ Hsto H).
  - intros data len rb' out H. apply DataRead_frame in H. tauto.
  - intros data len st rb' out len0 H.
    pose proof (DataWatch_frame _ _ _ _ _ _ H) as ->.
    repeat split. intros ->. unfold RingBuf_DataRead.
    destruct (buf rb); [contradiction|]. rewrite H.
    cbn [bind RINGBUF_STATUS_eqb negb]. eexists. reflexivity.
  - intros sto d d' len Hb [Hh Ht] Hl Hd Hd'. split.
    + destruct (DataPut_ok rb sto d len Hb Hh Hl Hd) as (st' & E & _).
      eexists. exact E.
    + do 2 eexists. split.
      * apply DataWatch_ok; eassumption.
      * apply DataRead_ok; eassumption.
Qed.

(** ** Overflow rejection *)

(** C5 (as amended): on a bound buffer, put_many with [len > capacity]
    returns Overflow, and so do read_many and watch_many when their output
    pointer is not null; the record, hence [head] and [tail], is left as it
    was.  No put_many, read_many or watch_many call with [len <= capacity]
    returns Overflow, however many cells are occupied. *)
Theorem overflow_rejection (rb : RINGBUF_t) (data : ptr) (len : Z) :
  buf rb <> NULL ->
  (size rb < len ->
   RingBuf_DataPut size_bits data len rb = Done (RINGBUF_OVERFLOW, rb)
   /\ (data <> NULL ->
       RingBuf_DataRead size_bits data len rb
       = Done (RINGBUF_OVERFLOW, rb, data)
       /\ RingBuf_DataWatch size_bits data len rb
          = Done (RINGBUF_OVERFLOW, rb, data)))
  /\ (len <= size rb ->
      (forall rb', RingBuf_DataPut size_bits data len rb
                   <> Done (RINGBUF_OVERFLOW, rb'))
      /\ (forall rb' out, RingBuf_DataRead size_bits data len rb
                          <> Done (RINGBUF_OVERFLOW, rb', out))
      /\ (forall rb' out, RingBuf_DataWatch size_bits data len rb
                          <> Done (RINGBUF_OVERFLOW, rb', out))).
Proof.
  intros Hbuf. split.
  - intros Hlen.
    assert (W : data <> NULL ->
                RingBuf_DataWatch size_bits data len rb
                = Done (RINGBUF_OVERFLOW, rb, data)).
    { intros Hd. unfold RingBuf_DataWatch.
      destruct data; [contradiction|]. rewrite gtb_true by lia. reflexivity. }
    split.
    + unfold RingBuf_DataPut. destruct (buf rb); [contradiction|].
      rewrite gtb_true by lia. reflexivity.
    + intros Hd. split; [|auto]. unfold RingBuf_DataRead.
      destruct (buf rb); [contradiction|]. rewrite (W Hd). reflexivity.
  - intros Hlen.
    assert (W : forall rb' out, RingBuf_DataWatch size_bits data len rb
                                <> Done (RINGBUF_OVERFLOW, rb', out)).
    { intros rb' out H. unfold RingBuf_DataWatch in H.
      destruct data; [discriminate|]. rewrite gtb_false in H by lia.
      apply bind_Done in H as [[[[d1 lt] sa] l1] [_ H]].
      apply bind_Done in H as [d2 [_ H]]. discriminate. }
    repeat apply conj.
    + intros rb' H. unfold RingBuf_DataPut in H.
      destruct (buf rb); [contradiction|]. rewrite gtb_false in H by lia.
      apply bind_Done in H as [[[rb1 sa] l1] [_ H]].
      apply bind_Done in H as [b [_ H]]. discriminate.
    + intros rb' out H. unfold RingBuf_DataRead in H.
      destruct (buf rb); [contradiction|].
      apply bind_Done in H as [[[st1 rb1] out1] [H1 H]].
      destruct st1; cbn [RINGBUF_STATUS_eqb negb] in H; try discriminate.
      exact (W _ _ H1).
    + exact W.
Qed.

(** ** Initialisation *)

(** C6 (as amended): init stores [storage], [capacity] and [cell_size] in
    the record and returns ParamError exactly when [storage] is null, Ok
    otherwise; with a non-null [storage] it resets [head] and [tail] to
    zero, with a null one it leaves both as they were. *)
Theorem init_binds_and_resets (b : ptr) (sz cellsize : Z) (rb : RINGBUF_t) :
  let r := RingBuf_Init b sz cellsize rb in
  buf (snd r) = b /\ size (snd r) = sz /\ cell_size (snd r) = cellsize
  /\ (fst r = RINGBUF_PARAM_ERR <-> b = NULL)
  /\ (b <> NULL ->
      fst r = RINGBUF_OK /\ head (snd r) = 0 /\ tail (snd r) = 0)
  /\ (b = NULL -> head (snd r) = head rb /\ tail (snd r) = tail rb).
Proof.
  unfold RingBuf_Init, RingBuf_Clear. destruct b as [|d]; cbn.
  - intuition congruence.
  - intuition congruence.
Qed.

(** ** The index invariant *)

Lemma load_ok (d : list byte) (i : Z) :
  0 <= i < len_of d -> exists b, load (Ptr d) i = Done b.
Proof.
  intros Hi. unfold load.
  destruct (Z.leb_spec 0 i); [|lia]. destruct (Z.ltb_spec i (len_of d)); [|lia].
  cbn [andb]. destruct (nth_error d (Z.to_nat i)) as [b|] eqn:E; [eauto|].
  apply nth_error_None in E. lia.
Qed.

Lemma store_ok (d : list byte) (i : Z) (b : byte) :
  0 <= i < len_of d -> exists d', store (Ptr d) i b = Done (Ptr d').
Proof.
  intros Hi. unfold store.
  destruct (Z.leb_spec 0 i); [|lia]. destruct (Z.ltb_spec i (len_of d)); [|lia].
  cbn [andb]. eauto.
Qed.

Lemma byte_index (rb : RINGBUF_t) (st : list byte) (i : Z) :
  bound_to size_bits rb st -> 1 <= cell_size rb -> 0 <= i < size rb ->
  0 <= i < len_of st.
Proof. intros [_ Hlen Hsz _ _] Hc Hi. nia. Qed.

Lemma ByteWatch_ok (rb : RINGBUF_t) (st d : list byte) :
  bound_to size_bits rb st -> 0 <= tail rb < size rb ->
  1 <= cell_size rb -> 1 <= len_of d ->
  exists out, RingBuf_ByteWatch (Ptr d) rb = Done (RINGBUF_OK, rb, out).
Proof.
  intros Hb Ht Hc Hd. unfold RingBuf_ByteWatch.
  rewrite (bound_buf _ _ _ Hb).
  destruct (load_ok st (tail rb) (byte_index rb st _ Hb Hc Ht)) as [b ->].
  cbn [bind]. destruct (store_ok d 0 b ltac:(lia)) as [d' ->].
  cbn [bind]. eauto.
Qed.

Lemma call_defined (o : op) (rb : RINGBUF_t) (sto : list byte) :
  bound_to size_bits rb sto -> idx_ok rb -> args_ok o rb ->
  exists st rb', call size_bits o rb = Done (st, rb').
Proof.
  intros Hb [Hh Ht] Ha. pose proof (bound_buf _ _ _ Hb) as Hbuf.
  destruct o as [|l0|b|data|data len|data|data|data len|data|data|data len];
    cbn [call args_ok] in *.
  - destruct (RingBuf_Clear rb). eauto.
  - destruct (RingBuf_Available size_bits l0 rb) as [[st rb'] l]. cbn. eauto.
  - unfold RingBuf_BytePut. rewrite Hbuf.
    destruct (store_ok sto (head rb) b (byte_index rb sto _ Hb Ha Hh))
      as [d' ->].
    cbn [bind]. eauto.
  - destruct Ha as (d & -> & Hd).
    destruct (DataPut_ok rb sto d 1 Hb Hh ltac:(lia) Hd) as (st' & E & _).
    unfold RingBuf_CellPut. rewrite E. eauto.
  - destruct Ha as (Hl & d & -> & Hd).
    destruct (Z.le_gt_cases len (size rb)) as [Hle|Hgt].
    + destruct (DataPut_ok rb sto d len Hb Hh ltac:(lia) Hd) as (st' & E & _).
      rewrite E. eauto.
    + unfold RingBuf_DataPut. rewrite Hbuf, gtb_true by lia. eauto.
  - destruct Ha as (Hc & d & -> & Hd).
    destruct (ByteWatch_ok rb sto d Hb Ht Hc Hd) as [out E].
    unfold RingBuf_ByteRead. rewrite Hbuf, E. cbn. eauto.
  - destruct Ha as (d & -> & Hd).
    unfold RingBuf_CellRead.
    rewrite (DataRead_ok rb sto d 1 Hb Ht ltac:(lia) Hd). cbn. eauto.
  - destruct Ha as (Hl & d & -> & Hd).
    destruct (Z.le_gt_cases len (size rb)) as [Hle|Hgt].
    + rewrite (DataRead_ok rb sto d len Hb Ht ltac:(lia) Hd). cbn. eauto.
    + unfold RingBuf_DataRead, RingBuf_DataWatch.
      rewrite Hbuf, gtb_true by lia. cbn. eauto.
  - destruct Ha as (Hc & d & -> & Hd).
    destruct (ByteWatch_ok rb sto d Hb Ht Hc Hd) as [out ->]. cbn. eauto.
  - destruct Ha as (d & -> & Hd).
    unfold RingBuf_CellWatch.
    rewrite (DataWatch_ok rb sto d 1 Hb Ht ltac:(lia) Hd). cbn. eauto.
  - destruct Ha as (Hl & d & -> & Hd).
    destruct (Z.le_gt_cases len (size rb)) as [Hle|Hgt].
    + rewrite (DataWatch_ok rb sto d len Hb Ht ltac:(lia) Hd). cbn. eauto.
    + unfold RingBuf_DataWatch. rewrite gtb_true by lia. cbn. eauto.
Qed.

Lemma call_keeps_indices (o : op) (rb rb' : RINGBUF_t) (st : RINGBUF_STATUS) :
  idx_ok rb -> call size_bits o rb = Done (st, rb') ->
  idx_ok rb' /\ size rb' = size rb.
Proof.
  intros [Hh Ht] H.
  assert (Hs : 0 < size rb) by lia.
  destruct o as [|l0|b|data|data len|data|data|data len|data|data|data len];
    cbn [call] in H.
  - unfold RingBuf_Clear in H.
    destruct (buf rb); injection H as <- <-; unfold idx_ok; cbn; lia.
  - unfold RingBuf_Available in H.
    destruct (buf rb); [|destruct (head rb <? tail rb)];
      injection H as <- <-; unfold idx_ok; lia.
  - apply BytePut_frame in H as (Et & Es & _ & [[-> _]|[_ Hr]]);
      unfold idx_ok; [lia | specialize (Hr Hs); lia].
  - apply DataPut_frame in H as (Et & Es & _ & [[-> _]|(_ & _ & Hr)]);
      unfold idx_ok; [lia | specialize (Hr Hs); lia].
  - apply DataPut_frame in H as (Et & Es & _ & [[-> _]|(_ & _ & Hr)]);
      unfold idx_ok; [lia | specialize (Hr Hs); lia].
  - apply bind_Done in H as [[[st1 rb1] out] [H1 [= <- <-]]].
    apply ByteRead_frame in H1 as (Eh & Es & _ & _ & [[-> _]|[_ Hr]]);
      unfold idx_ok; [lia | specialize (Hr Hs); lia].
  - apply bind_Done in H as [[[st1 rb1] out] [H1 [= <- <-]]].
    apply DataRead_frame in H1 as (Eh & Es & _ & _ & [[-> _]|[_ Hr]]);
      unfold idx_ok; [lia | specialize (Hr Hs); lia].
  - apply bind_Done in H as [[[st1 rb1] out] [H1 [= <- <-]]].
    apply DataRead_frame in H1 as (Eh & Es & _ & _ & [[-> _]|[_ Hr]]);
      unfold idx_ok; [lia | specialize (Hr Hs); lia].
  - apply bind_Done in H as [[[st1 rb1] out] [H1 [= <- <-]]].
    apply ByteWatch_frame in H1 as ->. unfold idx_ok. lia.
  - apply bind_Done in H as [[[st1 rb1] out] [H1 [= <- <-]]].
    apply DataWatch_frame in H1 as ->. unfold idx_ok. lia.
  - apply bind_Done in H as [[[st1 rb1] out] [H1 [= <- <-]]].
    apply DataWatch_frame in H1 as ->. unfold idx_ok. lia.
Qed.

(** C8: on a buffer with [capacity >= 1], [0 <= head < capacity] and
    [0 <= tail < capacity], whatever status a call of the interface (clear,
    available, the put, read and watch calls) returns, the record after it
    has the same capacity and again [0 <= head < capacity] and
    [0 <= tail < capacity]; and on a bound buffer with well-formed arguments
    every call does return. *)
Theorem index_range_preserved (o : op) (rb : RINGBUF_t) :
  1 <= size rb -> idx_ok rb ->
  (forall st rb', call size_bits o rb = Done (st, rb') ->
                  idx_ok rb' /\ size rb' = size rb)
  /\ (forall sto, bound_to size_bits rb sto -> args_ok o rb ->
                  exists st rb', call size_bits o rb = Done (st, rb')).
Proof.
  intros _ Hi. split.
  - intros st rb' H. exact (call_keeps_indices o rb rb' st Hi H).
  - intros sto Hb Ha. exact (call_defined o rb sto Hb Hi Ha).
Qed.

(** ** Unbound buffers *)

(** X12: On a record whose storage pointer is null, every call but the
    watch calls returns ParamError and leaves the record as it was. *)
Lemma unbound_rejected (o : op) (rb : RINGBUF_t) :
  buf rb = NULL -> is_watch o = false ->
  call size_bits o rb = Done (RINGBUF_PARAM_ERR, rb).
Proof.
  intros Hbuf Hw.
  destruct o; try discriminate; cbn [call];
    unfold RingBuf_Clear, RingBuf_Available, RingBuf_BytePut, RingBuf_CellPut,
      RingBuf_DataPut, RingBuf_ByteRead, RingBuf_CellRead, RingBuf_DataRead;
    rewrite Hbuf; reflexivity.
Qed.

(** * Further properties of the code *)

(** ** Windows of the ring, counted in cells *)

Lemma mod_wrap (x s : Z) :
  0 <= x < 2 * s -> x mod s = if x <? s then x else x - s.
Proof.
  intros Hx. destruct (Z.ltb_spec x s).
  - apply Z.mod_small. lia.
  - symmetry. apply Z.mod_unique with (q := 1); lia.
Qed.

Lemma mod_back (h l k s : Z) :
  0 <= h < s -> (((h + l) mod s + k) mod s + (s - k - l)) mod s = h.
Proof.
  intros Hh. rewrite (Zplus_mod_idemp_l (h + l) k s).
  rewrite (Zplus_mod_idemp_l (h + l + k) (s - k - l) s).
  replace (h + l + k + (s - k - l)) with (h + 1 * s) by ring.
  rewrite Z_mod_plus_full. apply Z.mod_small. assumption.
Qed.

Section Cells.

Variables (st : list byte) (cap cell : Z).
Hypothesis st_len : len_of st = cap * cell.
Hypothesis cell_nonneg : 0 <= cell.

Lemma cells_split (h l1 l2 : Z) :
  0 <= h < cap -> 0 <= l1 -> 0 <= l2 -> l1 + l2 <= cap ->
  window st (h * cell) ((l1 + l2) * cell)
  = window st (h * cell) (l1 * cell)
    ++ window st ((h + l1) mod cap * cell) (l2 * cell).
Proof.
  intros Hh H1 H2 Hs. unfold window.
  assert (0 <= h * cell <= cap * cell) by nia.
  assert (0 <= (l1 + l2) * cell <= cap * cell) by nia.
  assert (0 <= l1 * cell) by nia. assert (0 <= l2 * cell) by nia.
  replace (Z.to_nat ((l1 + l2) * cell))
    with (Z.to_nat (l1 * cell) + Z.to_nat (l2 * cell))%nat by lia.
  apply window_split; try lia.
  rewrite mod_wrap by lia. destruct (Z.ltb_spec (h + l1) cap).
  - left. lia.
  - right. assert (0 <= (h + l1 - cap) * cell) by nia. lia.
Qed.

Lemma cells_length (h l : Z) :
  0 <= h <= cap -> 0 <= l <= cap ->
  length (window st (h * cell) (l * cell)) = Z.to_nat (l * cell).
Proof.
  intros Hh Hl. unfold window.
  assert (0 <= h * cell <= cap * cell) by nia.
  assert (0 <= l * cell <= cap * cell) by nia.
  apply window_length; lia.
Qed.

(** A window inside a window. *)
Lemma cells_sub (h a m big : Z) :
  0 <= h < cap -> 0 <= a -> 0 <= m -> a + m <= big -> big <= cap ->
  window st ((h + a) mod cap * cell) (m * cell)
  = firstn (Z.to_nat (m * cell))
      (skipn (Z.to_nat (a * cell)) (window st (h * cell) (big * cell))).
Proof.
  intros Hh Ha Hm Hb Hc.
  assert (Hr : 0 <= (h + a) mod cap < cap) by (apply Z.mod_pos_bound; lia).
  replace big with ((a + m) + (big - a - m)) by lia.
  rewrite (cells_split h (a + m)), (cells_split h a m) by lia.
  rewrite <- app_assoc, skipn_app, cells_length by lia.
  rewrite skipn_all2 by (rewrite cells_length; lia). cbn [app].
  replace (Z.to_nat (a * cell) - Z.to_nat (a * cell))%nat with 0%nat by lia.
  rewrite skipn_O, firstn_app, cells_length by lia.
  replace (Z.to_nat (m * cell) - Z.to_nat (m * cell))%nat with 0%nat by lia.
  rewrite firstn_0, app_nil_r. symmetry. apply firstn_all2.
  rewrite cells_length; lia.
Qed.

End Cells.

(** Two storages that agree on a window agree on every window inside it. *)
Lemma cells_agree (st st' : list byte) (cap cell h a m big : Z) :
  len_of st = cap * cell -> len_of st' = cap * cell -> 0 <= cell ->
  0 <= h < cap -> 0 <= a -> 0 <= m -> a + m <= big -> big <= cap ->
  window st' (h * cell) (big * cell) = window st (h * cell) (big * cell) ->
  window st' ((h + a) mod cap * cell) (m * cell)
  = window st ((h + a) mod cap * cell) (m * cell).
Proof.
  intros L L' Hc Hh Ha Hm Hb Hcap E.
  rewrite (cells_sub st cap cell L Hc h a m big) by assumption.
  rewrite (cells_sub st' cap cell L' Hc h a m big) by assumption.
  rewrite E. reflexivity.
Qed.

(** ** The data of runs of puts and reads *)

Lemma firstn_app_exact (a b : list byte) (n : nat) :
  length a = n -> firstn n (a ++ b) = a.
Proof.
  intros <-. rewrite firstn_app, Nat.sub_diag, firstn_0, app_nil_r.
  apply firstn_all.
Qed.

Lemma data_of_cons (cell : Z) (d : list byte) (l : Z)
      (calls : list (ptr * Z)) :
  data_of cell ((Ptr d, l) :: calls)
  = firstn (Z.to_nat (l * cell)) d ++ data_of cell calls.
Proof. reflexivity. Qed.

(** A run of puts of at most [capacity] cells writes its data, in call
    order, into the window that starts at [head], and leaves the rest of the
    ring as it was. *)
Lemma put_all_content (calls : list (ptr * Z)) :
  forall (rb : RINGBUF_t) (st : list byte),
    bound_to size_bits rb st -> 0 <= head rb < size rb ->
    Forall (args_hold (cell_size rb)) calls -> total calls <= size rb ->
    exists st',
      put_all size_bits calls rb
      = Done (map (fun _ => RINGBUF_OK) calls,
              mkRINGBUF (Ptr st') (tail rb)
                        ((head rb + total calls) mod size rb)
                        (size rb) (cell_size rb))
      /\ len_of st' = len_of st
      /\ window st' (head rb * cell_size rb) (total calls * cell_size rb)
         = data_of (cell_size rb) calls
      /\ window st' ((head rb + total calls) mod size rb * cell_size rb)
                ((size rb - total calls) * cell_size rb)
         = window st ((head rb + total calls) mod size rb * cell_size rb)
                  ((size rb - total calls) * cell_size rb).
Proof.
  induction calls as [|[data len] calls IH]; intros rb st Hb Hh Hargs Htot.
  - exists st. cbn [put_all map total fold_right].
    rewrite Z.add_0_r, Z.mod_small by lia.
    repeat split.
    destruct Hb as [Hbuf _ _ _ _]. destruct rb; cbn in *. subst. reflexivity.
  - apply Forall_cons_iff in Hargs as [[Hl (d & Hp & Hd)] Hrest].
    cbn [fst snd] in Hl, Hp, Hd. subst data.
    pose proof (total_nonneg _ _ Hrest) as Hnn.
    cbn [total fold_right snd] in Htot |- *. fold (total calls) in Htot |- *.
    destruct (DataPut_ok rb st d len Hb Hh ltac:(lia) Hd)
      as (st1 & E1 & L1 & W1 & F1).
    set (rb1 := mkRINGBUF (Ptr st1) (tail rb) ((head rb + len) mod size rb)
                          (size rb) (cell_size rb)) in *.
    pose proof Hb as [_ Hlen Hsz Hc _].
    assert (Hb1 : bound_to size_bits rb1 st1).
    { destruct Hb. constructor; cbn; try assumption; try reflexivity. lia. }
    assert (Hh1 : 0 <= head rb1 < size rb1)
      by (cbn; apply Z.mod_pos_bound; lia).
    destruct (IH rb1 st1 Hb1 Hh1 Hrest ltac:(cbn; lia))
      as (st2 & E2 & L2 & W2 & F2).
    cbn [rb1 tail head size cell_size] in E2, W2, F2, Hh1.
    set (h1 := (head rb + len) mod size rb) in *.
    set (h2 := (h1 + total calls) mod size rb) in *.
    assert (Hh2 : 0 <= h2 < size rb) by (apply Z.mod_pos_bound; lia).
    assert (E3 : (head rb + (len + total calls)) mod size rb = h2).
    { unfold h2, h1. rewrite Zplus_mod_idemp_l. f_equal. lia. }
    exists st2. rewrite E3. split; [|split; [lia|split]].
    + cbn [put_all]. rewrite E1. cbn [bind]. rewrite E2. reflexivity.
    + rewrite data_of_cons, <- W1, <- W2.
      rewrite (cells_split st2 (size rb) (cell_size rb)) by lia.
      fold h1. f_equal.
      pose proof (cells_agree st1 st2 (size rb) (cell_size rb) h2
                    (size rb - total calls - len) len
                    (size rb - total calls)) as A.
      assert (Eb : (h2 + (size rb - total calls - len)) mod size rb = head rb)
        by (unfold h2, h1; apply mod_back; lia).
      rewrite Eb in A. apply A; try lia. exact F2.
    + replace (size rb - (len + total calls))
        with (size rb - len - total calls) by lia.
      pose proof (cells_agree st1 st2 (size rb) (cell_size rb) h2 0
                    (size rb - len - total calls)
                    (size rb - total calls)) as A.
      rewrite Z.add_0_r, (Z.mod_small h2) in A by lia.
      rewrite A by (lia || exact F2).
      pose proof (cells_agree st st1 (size rb) (cell_size rb) h1
                    (total calls) (size rb - len - total calls)
                    (size rb - len)) as B.
      fold h2 in B. apply B; try lia. exact F1.
Qed.

(** A run of reads none of which goes past the end of the storage delivers
    the window that starts at [tail]. *)
Lemma read_all_content (reads : list (ptr * Z)) :
  forall (rb : RINGBUF_t) (st : list byte),
    bound_to size_bits rb st -> 0 <= tail rb < size rb ->
    Forall (args_hold (cell_size rb)) reads ->
    no_cross (size rb) (tail rb) reads -> total reads <= size rb ->
    exists outs,
      read_all size_bits reads rb
      = Done (outs, set_tail rb ((tail rb + total reads) mod size rb))
      /\ map fst outs = map (fun _ => RINGBUF_OK) reads
      /\ delivered (cell_size rb) reads outs
         = window st (tail rb * cell_size rb) (total reads * cell_size rb).
Proof.
  induction reads as [|[data len] reads IH];
    intros rb st Hb Ht Hargs Hcross Htot.
  - exists []. cbn [read_all total fold_right].
    rewrite Z.add_0_r, Z.mod_small by lia.
    repeat split. destruct rb; reflexivity.
  - apply Forall_cons_iff in Hargs as [[Hl (d & Hp & Hd)] Hrest].
    cbn [fst snd] in Hl, Hp, Hd. subst data.
    destruct Hcross as [Hc1 Hcross]. cbn [snd] in Hc1, Hcross.
    pose proof (total_nonneg _ _ Hrest) as Hnn.
    cbn [total fold_right snd] in Htot |- *. fold (total reads) in Htot |- *.
    pose proof (DataRead_ok rb st d len Hb Ht ltac:(lia) Hd) as E1.
    pose proof Hb as [_ Hlen Hsz Hc _].
    rewrite (to_size_t_u16 (tail rb + len)) in E1 by lia.
    assert (Ew : (if tail rb + len >=? size rb then 0 else tail rb + len)
                 = (tail rb + len) mod size rb).
    { rewrite (wrap_head (tail rb) len (size rb)) by lia.
      rewrite gtb_false by lia. reflexivity. }
    rewrite Ew in E1.
    set (rb1 := set_tail rb ((tail rb + len) mod size rb)) in *.
    assert (Hb1 : bound_to size_bits rb1 st).
    { destruct Hb. constructor; cbn; assumption. }
    assert (Ht1 : 0 <= tail rb1 < size rb1)
      by (cbn; apply Z.mod_pos_bound; lia).
    destruct (IH rb1 st Hb1 Ht1 Hrest Hcross ltac:(cbn; lia))
      as (outs & E2 & M2 & D2).
    cbn [rb1 set_tail tail size cell_size] in E2, D2.
    eexists. split; [|split].
    + cbn [read_all]. rewrite E1. cbn [bind]. rewrite E2. cbn [bind].
      cbn [rb1 set_tail tail head size cell_size buf].
      rewrite Zplus_mod_idemp_l, Z.add_assoc. reflexivity.
    + cbn [map fst]. rewrite M2. reflexivity.
    + unfold delivered in *. cbn [map snd combine]. rewrite data_of_cons, D2.
      rewrite firstn_app_exact
        by (apply (cells_length st (size rb) (cell_size rb)); lia).
      symmetry. apply (cells_split st (size rb) (cell_size rb)); lia.
Qed.

Lemma no_cross_cells (cap : Z) (reads : list (ptr * Z)) :
  Forall (fun c => snd c = 1) reads ->
  forall t, 0 <= t < cap -> no_cross cap t reads.
Proof.
  induction 1 as [|c reads Hc _ IH]; intros t Ht; cbn [no_cross].
  - exact I.
  - rewrite Hc. split; [lia|]. apply IH. apply Z.mod_pos_bound. lia.
Qed.

(** Puts into an empty buffer, then reads none of which goes past the end
    of the storage. *)
Lemma puts_then_reads (rb : RINGBUF_t) (st : list byte)
      (puts reads : list (ptr * Z)) :
  bound_to size_bits rb st -> idx_ok rb -> head rb = tail rb ->
  Forall (args_hold (cell_size rb)) puts ->
  Forall (args_hold (cell_size rb)) reads ->
  total puts <= size rb -> total reads <= total puts ->
  no_cross (size rb) (tail rb) reads ->
  exists rb1 outs rb2,
    put_all size_bits puts rb = Done (map (fun _ => RINGBUF_OK) puts, rb1)
    /\ read_all size_bits reads rb1 = Done (outs, rb2)
    /\ map fst outs = map (fun _ => RINGBUF_OK) reads
    /\ delivered (cell_size rb) reads outs
       = firstn (Z.to_nat (total reads * cell_size rb))
           (data_of (cell_size rb) puts)
    /\ (total reads = total puts ->
        delivered (cell_size rb) reads outs = data_of (cell_size rb) puts).
Proof.
  intros Hb [Hh Ht] E Hputs Hreads Hk Hn Hcross.
  pose proof (total_nonneg _ _ Hputs) as Hk0.
  pose proof (total_nonneg _ _ Hreads) as Hn0.
  pose proof Hb as [_ Hlen Hsz Hc _].
  destruct (put_all_content puts rb st Hb Hh Hputs Hk)
    as (st1 & E1 & L1 & W1 & _).
  set (rb1 := mkRINGBUF (Ptr st1) (tail rb)
                        ((head rb + total puts) mod size rb)
                        (size rb) (cell_size rb)) in *.
  assert (Hb1 : bound_to size_bits rb1 st1).
  { destruct Hb. constructor; cbn; try assumption; try reflexivity. lia. }
  destruct (read_all_content reads rb1 st1 Hb1 Ht Hreads Hcross ltac:(cbn; lia))
    as (outs & E2 & M2 & D2).
  cbn [rb1 tail size cell_size] in D2.
  assert (D : delivered (cell_size rb) reads outs
              = firstn (Z.to_nat (total reads * cell_size rb))
                  (data_of (cell_size rb) puts)).
  { rewrite D2, <- W1, E. unfold window. rewrite firstn_firstn. f_equal.
    assert (total reads * cell_size rb <= total puts * cell_size rb) by nia.
    lia. }
  exists rb1, outs. eexists. repeat split; try eassumption.
  intros En. rewrite D, <- W1, En. apply firstn_all2.
  rewrite (cells_length st1 (size rb) (cell_size rb)); lia.
Qed.

(** C4 (as amended): on a bound buffer that is empty ([head = tail], both
    in range), after a run of put_many calls of [m < capacity] cells in
    total every call has returned Ok and available() returns [m]; after a
    following run of read_many calls of [n <= m] cells in total, none of
    which goes past the end of the storage ([tail + len <= capacity] at each
    call), every call has returned Ok and available() returns [m - n]. *)
Theorem available_accounting (rb : RINGBUF_t) (st : list byte)
        (puts reads : list (ptr * Z)) (len0 : Z) :
  bound_to size_bits rb st -> idx_ok rb -> head rb = tail rb ->
  Forall (args_hold (cell_size rb)) puts -> total puts < size rb ->
  Forall (args_hold (cell_size rb)) reads -> total reads <= total puts ->
  no_cross (size rb) (tail rb) reads ->
  exists rb1 outs rb2,
    put_all size_bits puts rb = Done (map (fun _ => RINGBUF_OK) puts, rb1)
    /\ RingBuf_Available size_bits len0 rb1 = (RINGBUF_OK, rb1, total puts)
    /\ read_all size_bits reads rb1 = Done (outs, rb2)
    /\ map fst outs = map (fun _ => RINGBUF_OK) reads
    /\ RingBuf_Available size_bits len0 rb2
       = (RINGBUF_OK, rb2, total puts - total reads).
Proof.
  intros Hb [Hh Ht] E Hputs Hm Hreads Hn Hcross.
  pose proof (total_nonneg _ _ Hputs) as Hm0.
  pose proof (total_nonneg _ _ Hreads) as Hn0.
  pose proof (bound_size _ _ _ Hb) as Hsz.
  destruct (put_all_ok puts rb st Hb Hh Hputs ltac:(lia)) as (st1 & E1 & L1).
  set (rb1 := mkRINGBUF (Ptr st1) (tail rb) ((head rb + total puts) mod size rb)
                        (size rb) (cell_size rb)) in *.
  assert (Hb1 : bound_to size_bits rb1 st1).
  { destruct Hb. constructor; cbn; try assumption; try reflexivity. lia. }
  assert (Hi1 : idx_ok rb1).
  { split; cbn; [apply Z.mod_pos_bound; lia | assumption]. }
  destruct (read_all_content reads rb1 st1 Hb1 (proj2 Hi1) Hreads Hcross
              ltac:(cbn; lia))
    as (outs & E2 & M2 & _).
  set (rb2 := set_tail rb1 ((tail rb1 + total reads) mod size rb1)) in *.
  assert (Hb2 : bound_to size_bits rb2 st1).
  { destruct Hb1. constructor; cbn; assumption. }
  assert (Hi2 : idx_ok rb2).
  { split; cbn; apply Z.mod_pos_bound; lia. }
  exists rb1, outs, rb2. repeat split; try assumption.
  - rewrite (Available_mod rb1 st1 len0 Hb1 Hi1). f_equal. cbn.
    rewrite Zminus_mod_idemp_l, E.
    replace (tail rb + total puts - tail rb) with (total puts) by lia.
    apply Z.mod_small. lia.
  - rewrite (Available_mod rb2 st1 len0 Hb2 Hi2). f_equal. cbn.
    rewrite <- Zminus_mod, E.
    replace (tail rb + total puts - (tail rb + total reads))
      with (total puts - total reads) by lia.
    apply Z.mod_small. lia.
Qed.

(** X1: FIFO order: after puts of [k <= capacity] cells in total into an empty
    bound buffer, reads of [n <= k] cells in total, none of which goes past
    the end of the storage, all return Ok and deliver the first [n] cells
    that were put, in the order they were put. *)
Theorem fifo_order (rb : RINGBUF_t) (st : list byte)
        (puts reads : list (ptr * Z)) :
  bound_to size_bits rb st -> idx_ok rb -> head rb = tail rb ->
  Forall (args_hold (cell_size rb)) puts ->
  Forall (args_hold (cell_size rb)) reads ->
  total puts <= size rb -> total reads <= total puts ->
  no_cross (size rb) (tail rb) reads ->
  exists rb1 outs rb2,
    put_all size_bits puts rb = Done (map (fun _ => RINGBUF_OK) puts, rb1)
    /\ read_all size_bits reads rb1 = Done (outs, rb2)
    /\ map fst outs = map (fun _ => RINGBUF_OK) reads
    /\ delivered (cell_size rb) reads outs
       = firstn (Z.to_nat (total reads * cell_size rb))
           (data_of (cell_size rb) puts)
    /\ (total reads = total puts ->
        delivered (cell_size rb) reads outs = data_of (cell_size rb) puts).
Proof. exact (puts_then_reads rb st puts reads). Qed.

(** X2: Reading one cell at a time is always in FIFO order: after puts of
    [k <= capacity] cells in total into an empty bound buffer, any number
    [n <= k] of one-cell reads return Ok and deliver the first [n] cells
    that were put. *)
Theorem fifo_cell_by_cell (rb : RINGBUF_t) (st : list byte)
        (puts reads : list (ptr * Z)) :
  bound_to size_bits rb st -> idx_ok rb -> head rb = tail rb ->
  Forall (args_hold (cell_size rb)) puts ->
  Forall (args_hold (cell_size rb)) reads ->
  Forall (fun c => snd c = 1) reads ->
  total puts <= size rb -> total reads <= total puts ->
  exists rb1 outs rb2,
    put_all size_bits puts rb = Done (map (fun _ => RINGBUF_OK) puts, rb1)
    /\ read_all size_bits reads rb1 = Done (outs, rb2)
    /\ map fst outs = map (fun _ => RINGBUF_OK) reads
    /\ delivered (cell_size rb) reads outs
       = firstn (Z.to_nat (total reads * cell_size rb))
           (data_of (cell_size rb) puts).
Proof.
  intros Hb Hi E Hputs Hreads Hone Hk Hn.
  destruct (puts_then_reads rb st puts reads Hb Hi E Hputs Hreads Hk Hn)
    as (rb1 & outs & rb2 & H1 & H2 & H3 & H4 & _).
  { apply no_cross_cells; [assumption | apply Hi]. }
  exists rb1, outs, rb2. auto.
Qed.

(** ** What one put writes and where one read leaves [tail] *)

(** X4: On a bound buffer with indices in range, a put of [len <= capacity]
    cells from an object that holds them returns Ok whatever the occupancy,
    advances [head] by [len] modulo the capacity, keeps [tail], capacity,
    cell size and the length of the storage, writes its cells into the
    window that starts at the old [head], and leaves the other
    [capacity - len] cells of the ring as they were. *)
Theorem put_many_effect (rb : RINGBUF_t) (st d : list byte) (len : Z) :
  bound_to size_bits rb st -> idx_ok rb ->
  0 <= len <= size rb -> len * cell_size rb <= len_of d ->
  exists rb' st',
    RingBuf_DataPut size_bits (Ptr d) len rb = Done (RINGBUF_OK, rb')
    /\ bound_to size_bits rb' st'
    /\ head rb' = (head rb + len) mod size rb
    /\ tail rb' = tail rb /\ size rb' = size rb
    /\ cell_size rb' = cell_size rb
    /\ window st' (head rb * cell_size rb) (len * cell_size rb)
       = firstn (Z.to_nat (len * cell_size rb)) d
    /\ window st' (head rb' * cell_size rb) ((size rb - len) * cell_size rb)
       = window st (head rb' * cell_size rb) ((size rb - len) * cell_size rb).
Proof.
  intros Hb [Hh _] Hl Hd.
  destruct (DataPut_ok rb st d len Hb Hh Hl Hd) as (st' & E & L & W & F).
  eexists. exists st'. split; [exact E|]. split.
  - destruct Hb. constructor; cbn; try assumption; try reflexivity. lia.
  - cbn [buf head tail size cell_size]. repeat split; assumption.
Qed.

(** X5: Where a read of [len <= capacity] cells leaves [tail]: at [tail + len]
    when that is below the capacity, at 0 otherwise; that is [tail + len]
    modulo the capacity exactly for the reads that do not go past the end
    of the storage. *)
Theorem read_many_tail (rb : RINGBUF_t) (st d : list byte) (len : Z) :
  bound_to size_bits rb st -> idx_ok rb ->
  0 <= len <= size rb -> len * cell_size rb <= len_of d ->
  tail rb + len < 2 ^ size_bits ->
  exists rb' out,
    RingBuf_DataRead size_bits (Ptr d) len rb = Done (RINGBUF_OK, rb', out)
    /\ tail rb' = (if tail rb + len <? size rb then tail rb + len else 0)
    /\ (tail rb' = (tail rb + len) mod size rb <-> tail rb + len <= size rb).
Proof.
  intros Hb [_ Ht] Hl Hd Hfit.
  rewrite (DataRead_ok rb st d len Hb Ht Hl Hd).
  do 2 eexists. split; [reflexivity|].
  cbn [set_tail tail]. rewrite to_size_t_small by lia.
  rewrite (mod_wrap (tail rb + len) (size rb)) by lia.
  destruct (Z.ltb_spec (tail rb + len) (size rb)).
  - rewrite geb_false by lia. split; [reflexivity | lia].
  - rewrite geb_true by lia. split; [reflexivity | lia].
Qed.

(** ** The count of occupied cells *)

(** X6: On a bound buffer with indices in range, available() returns Ok and the
    distance from [tail] to [head] modulo the capacity: a count that is
    never negative and always below the capacity, and that is 0 exactly
    when [head = tail]. *)
Theorem available_distance (rb : RINGBUF_t) (st : list byte) (len0 : Z) :
  bound_to size_bits rb st -> idx_ok rb ->
  exists n,
    RingBuf_Available size_bits len0 rb = (RINGBUF_OK, rb, n)
    /\ n = (head rb - tail rb) mod size rb
    /\ 0 <= n < size rb
    /\ (n = 0 <-> head rb = tail rb).
Proof.
  intros Hb Hi. pose proof Hi as [Hh Ht].
  exists ((head rb - tail rb) mod size rb).
  split; [apply (Available_mod rb st len0 Hb Hi)|].
  split; [reflexivity|]. split; [apply Z.mod_pos_bound; lia|].
  destruct (Z.ltb_spec (head rb) (tail rb)).
  - replace ((head rb - tail rb) mod size rb)
      with (head rb - tail rb + size rb)
      by (apply Z.mod_unique with (q := -1); lia).
    lia.
  - rewrite Z.mod_small by lia. lia.
Qed.

(** ** Transfers of no cells *)

(** X13: On a bound buffer with indices in range, a put, a watch and a read of
    0 cells return Ok and change neither the record, nor the storage, nor
    the output object. *)
Theorem zero_length_transfers (rb : RINGBUF_t) (st d : list byte) :
  bound_to size_bits rb st -> idx_ok rb ->
  RingBuf_DataPut size_bits (Ptr d) 0 rb = Done (RINGBUF_OK, rb)
  /\ RingBuf_DataWatch size_bits (Ptr d) 0 rb = Done (RINGBUF_OK, rb, Ptr d)
  /\ RingBuf_DataRead size_bits (Ptr d) 0 rb = Done (RINGBUF_OK, rb, Ptr d).
Proof.
  intros Hb [Hh Ht]. pose proof Hb as [Hbuf Hlen Hsz Hc Hf].
  pose proof (cell_offset rb st (head rb) Hb ltac:(lia)) as [Eh Rh].
  pose proof (cell_offset rb st 0 Hb ltac:(lia)) as [E0 _].
  assert (Ew : forall off,
             Ptr (window st off (0 * cell_size rb)
                  ++ skipn (Z.to_nat (0 * cell_size rb)) d) = Ptr d).
  { intros off. unfold window.
    replace (Z.to_nat (0 * cell_size rb)) with 0%nat by lia. reflexivity. }
  split; [|split].
  - unfold RingBuf_DataPut. rewrite Hbuf.
    rewrite (gtb_false 0 (size rb)) by lia.
    rewrite (to_size_t_u16 (size rb - head rb)) by lia.
    rewrite gtb_false by lia. cbn [bind]. rewrite ?Hbuf, Eh, E0.
    rewrite memcpy_Ptr by lia. cbn [bind set_head set_buf head size].
    rewrite Z.add_0_r, to_size_t_u16, geb_false by lia.
    replace (Z.to_nat (0 * cell_size rb)) with 0%nat by lia.
    rewrite firstn_0, Z.add_0_r. cbn [app]. rewrite firstn_skipn.
    destruct rb; cbn in *. subst. reflexivity.
  - rewrite (DataWatch_ok rb st d 0 Hb Ht ltac:(lia) ltac:(lia)), Ew.
    reflexivity.
  - rewrite (DataRead_ok rb st d 0 Hb Ht ltac:(lia) ltac:(lia)), Ew.
    rewrite Z.add_0_r, to_size_t_u16, geb_false by lia.
    destruct rb; reflexivity.
Qed.

(** ** The one-cell and one-byte calls *)

Lemma store_Ptr (d : list byte) (i : Z) (b : byte) :
  0 <= i < len_of d ->
  store (Ptr d) i b
  = Done (Ptr (firstn (Z.to_nat i) d ++ b :: skipn (Z.to_nat (i + 1)) d)).
Proof.
  intros Hi. unfold store.
  destruct (Z.leb_spec 0 i); [|lia]. destruct (Z.ltb_spec i (len_of d)); [|lia].
  reflexivity.
Qed.

Lemma load_Ptr (d : list byte) (i : Z) :
  0 <= i < len_of d ->
  exists x, nth_error d (Z.to_nat i) = Some x /\ load (Ptr d) i = Done x.
Proof.
  intros Hi. unfold load.
  destruct (Z.leb_spec 0 i); [|lia]. destruct (Z.ltb_spec i (len_of d)); [|lia].
  cbn [andb]. destruct (nth_error d (Z.to_nat i)) as [x|] eqn:E; [eauto|].
  apply nth_error_None in E. lia.
Qed.

Lemma firstn_1_skipn (l : list byte) (n : nat) (x : byte) :
  nth_error l n = Some x -> firstn 1 (skipn n l) = [x].
Proof.
  revert l. induction n as [|n IH]; intros [|y l] H; cbn in *;
    try discriminate.
  - injection H as ->. reflexivity.
  - apply IH. exact H.
Qed.

Lemma step_mod (i s : Z) :
  0 <= i < s -> (if i + 1 >=? s then 0 else i + 1) = (i + 1) mod s.
Proof.
  intros Hi. rewrite mod_wrap by lia.
  destruct (Z.geb_spec (i + 1) s), (Z.ltb_spec (i + 1) s); lia.
Qed.

Lemma BytePut_ok (rb : RINGBUF_t) (st : list byte) (b : byte) :
  bound_to size_bits rb st -> 0 <= head rb < size rb -> 1 <= cell_size rb ->
  RingBuf_BytePut size_bits b rb
  = Done (RINGBUF_OK,
          mkRINGBUF (Ptr (firstn (Z.to_nat (head rb)) st
                          ++ b :: skipn (Z.to_nat (head rb + 1)) st))
                    (tail rb) ((head rb + 1) mod size rb)
                    (size rb) (cell_size rb)).
Proof.
  intros Hb Hh Hc. pose proof (byte_index rb st _ Hb Hc Hh) as Hi.
  pose proof Hb as [Hbuf _ Hsz _ _].
  unfold RingBuf_BytePut. rewrite Hbuf, store_Ptr by assumption.
  cbn [bind set_head set_buf head size].
  rewrite to_size_t_u16 by lia. rewrite <- (step_mod (head rb) (size rb) Hh).
  destruct (head rb + 1 >=? size rb); reflexivity.
Qed.

Lemma ByteWatch_exact (rb : RINGBUF_t) (st d : list byte) :
  bound_to size_bits rb st -> 0 <= tail rb < size rb ->
  1 <= cell_size rb -> 1 <= len_of d ->
  exists x,
    nth_error st (Z.to_nat (tail rb)) = Some x
    /\ RingBuf_ByteWatch (Ptr d) rb = Done (RINGBUF_OK, rb, Ptr (x :: skipn 1 d)).
Proof.
  intros Hb Ht Hc Hd. pose proof (byte_index rb st _ Hb Hc Ht) as Hi.
  destruct (load_Ptr st (tail rb) Hi) as (x & Ex & El).
  exists x. split; [exact Ex|].
  unfold RingBuf_ByteWatch. rewrite (bound_buf _ _ _ Hb), El.
  cbn [bind]. rewrite store_Ptr by lia. reflexivity.
Qed.

Lemma ByteRead_ok (rb : RINGBUF_t) (st d : list byte) :
  bound_to size_bits rb st -> 0 <= tail rb < size rb ->
  1 <= cell_size rb -> 1 <= len_of d ->
  exists x,
    nth_error st (Z.to_nat (tail rb)) = Some x
    /\ RingBuf_ByteRead size_bits (Ptr d) rb
       = Done (RINGBUF_OK, set_tail rb ((tail rb + 1) mod size rb),
               Ptr (x :: skipn 1 d)).
Proof.
  intros Hb Ht Hc Hd.
  destruct (ByteWatch_exact rb st d Hb Ht Hc Hd) as (x & Ex & Ew).
  exists x. split; [exact Ex|]. pose proof Hb as [Hbuf _ Hsz _ _].
  unfold RingBuf_ByteRead. rewrite Hbuf, Ew.
  cbn [bind RINGBUF_STATUS_eqb negb set_tail tail size].
  rewrite to_size_t_u16 by lia. rewrite <- (step_mod (tail rb) (size rb) Ht).
  destruct (tail rb + 1 >=? size rb); reflexivity.
Qed.

(** X7: The calls that move one cell or one byte step their index by one
    modulo the capacity and leave the other index alone: the one-cell put
    and the byte put step [head], the one-cell read and the byte read step
    [tail]. *)
Theorem one_cell_calls_step (rb : RINGBUF_t) (st d : list byte) (b : byte) :
  bound_to size_bits rb st -> idx_ok rb ->
  1 <= cell_size rb -> cell_size rb <= len_of d ->
  (exists rb', RingBuf_CellPut size_bits (Ptr d) rb = Done (RINGBUF_OK, rb')
               /\ head rb' = (head rb + 1) mod size rb
               /\ tail rb' = tail rb)
  /\ (exists rb', RingBuf_BytePut size_bits b rb = Done (RINGBUF_OK, rb')
                  /\ head rb' = (head rb + 1) mod size rb
                  /\ tail rb' = tail rb)
  /\ (exists rb' out,
         RingBuf_CellRead size_bits (Ptr d) rb = Done (RINGBUF_OK, rb', out)
         /\ tail rb' = (tail rb + 1) mod size rb /\ head rb' = head rb)
  /\ (exists rb' out,
         RingBuf_ByteRead size_bits (Ptr d) rb = Done (RINGBUF_OK, rb', out)
         /\ tail rb' = (tail rb + 1) mod size rb /\ head rb' = head rb).
Proof.
  intros Hb [Hh Ht] Hc Hd. pose proof Hb as [_ _ Hsz _ _].
  split; [|split; [|split]].
  - destruct (DataPut_ok rb st d 1 Hb Hh ltac:(lia) ltac:(lia))
      as (st' & E & _).
    eexists. split; [exact E|]. split; reflexivity.
  - rewrite (BytePut_ok rb st b Hb Hh Hc).
    eexists. split; [reflexivity|]. split; reflexivity.
  - unfold RingBuf_CellRead.
    rewrite (DataRead_ok rb st d 1 Hb Ht ltac:(lia) ltac:(lia)).
    do 2 eexists. split; [reflexivity|]. cbn [set_tail tail head].
    rewrite to_size_t_u16 by lia. split; [apply step_mod; lia | reflexivity].
  - destruct (ByteRead_ok rb st d Hb Ht Hc ltac:(lia)) as (x & _ & E).
    rewrite E. do 2 eexists. split; [reflexivity|]. split; reflexivity.
Qed.

(** X8: With cells of one byte the byte calls are the one-cell calls: the byte
    put is the one-cell put of that byte, and the byte watch and read are
    the one-cell watch and read. *)
Theorem byte_calls_are_cell_calls (rb : RINGBUF_t) (st d : list byte)
        (b : byte) :
  bound_to size_bits rb st -> idx_ok rb -> cell_size rb = 1 ->
  1 <= len_of d ->
  RingBuf_BytePut size_bits b rb = RingBuf_CellPut size_bits (Ptr [b]) rb
  /\ RingBuf_ByteWatch (Ptr d) rb = RingBuf_CellWatch size_bits (Ptr d) rb
  /\ RingBuf_ByteRead size_bits (Ptr d) rb
     = RingBuf_CellRead size_bits (Ptr d) rb.
Proof.
  intros Hb [Hh Ht] Hc Hd. pose proof Hb as [Hbuf Hlen Hsz _ Hf].
  assert (Hw : RingBuf_ByteWatch (Ptr d) rb
               = RingBuf_DataWatch size_bits (Ptr d) 1 rb).
  { destruct (ByteWatch_exact rb st d Hb Ht ltac:(lia) Hd) as (x & Ex & ->).
    rewrite (DataWatch_ok rb st d 1 Hb Ht ltac:(lia) ltac:(lia)).
    unfold window. rewrite Hc, !Z.mul_1_r.
    rewrite window_flat by lia.
    change (Z.to_nat 1) with 1%nat.
    rewrite (firstn_1_skipn st _ x Ex). reflexivity. }
  split; [|split].
  - rewrite (BytePut_ok rb st b Hb Hh ltac:(lia)).
    rewrite <- (step_mod (head rb) (size rb) Hh).
    destruct rb as [bf t h sz c].
    cbn [buf tail head size cell_size] in *. subst bf c.
    unfold RingBuf_CellPut, RingBuf_DataPut.
    cbn [buf tail head size cell_size].
    rewrite (gtb_false 1 sz) by lia.
    rewrite (to_size_t_u16 (sz - h)) by lia.
    rewrite gtb_false by lia. cbn [bind buf head cell_size].
    rewrite !Z.mul_1_r.
    rewrite (to_size_t_u16 h), (to_size_t_u16 0), (to_size_t_u16 1) by lia.
    rewrite memcpy_Ptr by (cbn [length]; lia).
    cbn [bind set_head set_buf buf tail head size cell_size].
    rewrite to_size_t_u16 by lia.
    destruct (h + 1 >=? sz); reflexivity.
  - exact Hw.
  - unfold RingBuf_CellRead, RingBuf_ByteRead, RingBuf_DataRead.
    rewrite Hw. reflexivity.
Qed.

(** X9: A byte put into an empty bound buffer is the byte the next byte read
    returns, and the buffer is empty again after it. *)
Theorem byte_round_trip (rb : RINGBUF_t) (st d : list byte) (b : byte) :
  bound_to size_bits rb st -> idx_ok rb -> head rb = tail rb ->
  1 <= cell_size rb -> 1 <= len_of d ->
  exists rb1 rb2,
    RingBuf_BytePut size_bits b rb = Done (RINGBUF_OK, rb1)
    /\ RingBuf_ByteRead size_bits (Ptr d) rb1
       = Done (RINGBUF_OK, rb2, Ptr (b :: skipn 1 d))
    /\ head rb2 = tail rb2.
Proof.
  intros Hb [Hh Ht] E Hc Hd. pose proof Hb as [Hbuf Hlen Hsz Hcn Hf].
  pose proof (byte_index rb st _ Hb Hc Hh) as Hi.
  rewrite (BytePut_ok rb st b Hb Hh Hc).
  set (st1 := firstn (Z.to_nat (head rb)) st
              ++ b :: skipn (Z.to_nat (head rb + 1)) st).
  set (rb1 := mkRINGBUF (Ptr st1) (tail rb) ((head rb + 1) mod size rb)
                        (size rb) (cell_size rb)).
  assert (L1 : len_of st1 = len_of st).
  { unfold st1. rewrite length_app, length_firstn. cbn [length].
    rewrite length_skipn. lia. }
  assert (Hb1 : bound_to size_bits rb1 st1).
  { constructor; cbn; try assumption; try reflexivity. lia. }
  destruct (ByteRead_ok rb1 st1 d Hb1 Ht Hc Hd) as (x & Ex & Er).
  assert (x = b).
  { cbn [rb1 tail] in Ex. unfold st1 in Ex. rewrite <- E in Ex.
    rewrite nth_error_app2 in Ex by (rewrite length_firstn; lia).
    rewrite length_firstn in Ex.
    replace (Z.to_nat (head rb) - Nat.min (Z.to_nat (head rb)) (length st))%nat
      with 0%nat in Ex by lia.
    cbn in Ex. congruence. }
  subst x. exists rb1. eexists. split; [reflexivity|]. split; [exact Er|].
  cbn. rewrite E. reflexivity.
Qed.

(** ** Statuses, and calls that are rejected *)

Lemma DataPut_status (data : ptr) (len : Z) (rb rb' : RINGBUF_t)
      (st : RINGBUF_STATUS) :
  RingBuf_DataPut size_bits data len rb = Done (st, rb') ->
  st <> RINGBUF_ERR /\ (st <> RINGBUF_OK -> rb' = rb).
Proof.
  unfold RingBuf_DataPut. destruct (buf rb).
  { intros [= <- <-]. split; [discriminate | reflexivity]. }
  destruct (len >? size rb).
  { intros [= <- <-]. split; [discriminate | reflexivity]. }
  intros H. apply bind_Done in H as [[[rb1 sa] l1] [_ H]].
  apply bind_Done in H as [b [_ [= <- _]]].
  split; [discriminate | contradiction].
Qed.

Lemma BytePut_status (data : byte) (rb rb' : RINGBUF_t) (st : RINGBUF_STATUS) :
  RingBuf_BytePut size_bits data rb = Done (st, rb') ->
  st <> RINGBUF_ERR /\ (st <> RINGBUF_OK -> rb' = rb).
Proof.
  unfold RingBuf_BytePut. destruct (buf rb).
  { intros [= <- <-]. split; [discriminate | reflexivity]. }
  intros H. apply bind_Done in H as [b [_ [= <- _]]].
  split; [discriminate | contradiction].
Qed.

Lemma DataWatch_status (data out : ptr) (len : Z) (rb rb' : RINGBUF_t)
      (st : RINGBUF_STATUS) :
  RingBuf_DataWatch size_bits data len rb = Done (st, rb', out) ->
  st <> RINGBUF_ERR /\ rb' = rb /\ (st <> RINGBUF_OK -> out = data).
Proof.
  unfold RingBuf_DataWatch. destruct data as [|d].
  { intros [= <- <- <-]. repeat split. discriminate. }
  destruct (len >? size rb).
  { intros [= <- <- <-]. repeat split. discriminate. }
  intros H. apply bind_Done in H as [[[[d1 lt] sa] l1] [_ H]].
  apply bind_Done in H as [d2 [_ [= <- <- _]]].
  repeat split; [discriminate | contradiction].
Qed.

Lemma ByteWatch_status (data out : ptr) (rb rb' : RINGBUF_t)
      (st : RINGBUF_STATUS) :
  RingBuf_ByteWatch data rb = Done (st, rb', out) ->
  st <> RINGBUF_ERR /\ rb' = rb /\ (st <> RINGBUF_OK -> out = data).
Proof.
  unfold RingBuf_ByteWatch. destruct data as [|d].
  { intros [= <- <- <-]. repeat split. discriminate. }
  intros H. apply bind_Done in H as [b [_ H]].
  apply bind_Done in H as [d2 [_ [= <- <- _]]].
  repeat split; [discriminate | contradiction].
Qed.

Lemma DataRead_status (data out : ptr) (len : Z) (rb rb' : RINGBUF_t)
      (st : RINGBUF_STATUS) :
  RingBuf_DataRead size_bits data len rb = Done (st, rb', out) ->
  st <> RINGBUF_ERR /\ (st <> RINGBUF_OK -> rb' = rb /\ out = data).
Proof.
  unfold RingBuf_DataRead. destruct (buf rb).
  { intros [= <- <- <-]. split; [discriminate | auto]. }
  intros H. apply bind_Done in H as [[[st1 rb1] out1] [Hw H]].
  apply DataWatch_status in Hw as (Ne & -> & Ho).
  destruct st1; cbn [RINGBUF_STATUS_eqb negb] in H; injection H as <- <- <-.
  - split; [discriminate | contradiction].
  - contradiction.
  - split; [discriminate|]. intros _. split; [reflexivity|].
    apply Ho. discriminate.
  - split; [discriminate|]. intros _. split; [reflexivity|].
    apply Ho. discriminate.
Qed.

Lemma ByteRead_status (data out : ptr) (rb rb' : RINGBUF_t)
      (st : RINGBUF_STATUS) :
  RingBuf_ByteRead size_bits data rb = Done (st, rb', out) ->
  st <> RINGBUF_ERR /\ (st <> RINGBUF_OK -> rb' = rb /\ out = data).
Proof.
  unfold RingBuf_ByteRead. destruct (buf rb).
  { intros [= <- <- <-]. split; [discriminate | auto]. }
  intros H. apply bind_Done in H as [[[st1 rb1] out1] [Hw H]].
  apply ByteWatch_status in Hw as (Ne & -> & Ho).
  destruct st1; cbn [RINGBUF_STATUS_eqb negb] in H; injection H as <- <- <-.
  - split; [discriminate | contradiction].
  - contradiction.
  - split; [discriminate|]. intros _. split; [reflexivity|].
    apply Ho. discriminate.
  - split; [discriminate|]. intros _. split; [reflexivity|].
    apply Ho. discriminate.
Qed.

(** X10: None of the twelve functions returns the status RINGBUF_ERR.  A
    call of one of the eleven functions that work on an initialised record
    (clear, available, the put, read and watch calls) that returns a status
    other than Ok has changed nothing: the record is as it was, and so is
    the output object of a read or a watch.  Initialisation is the
    exception: when it returns a status other than Ok its storage is null,
    and it has still stored that null pointer, the capacity and the cell
    size, leaving only [head] and [tail] as they were. *)
Theorem rejected_calls_change_nothing :
  (forall o rb st rb',
      call size_bits o rb = Done (st, rb') ->
      st <> RINGBUF_ERR /\ (st <> RINGBUF_OK -> rb' = rb))
  /\ (forall data len rb st rb' out,
         RingBuf_DataRead size_bits data len rb = Done (st, rb', out) ->
         st <> RINGBUF_OK -> out = data)
  /\ (forall data len rb st rb' out,
         RingBuf_DataWatch size_bits data len rb = Done (st, rb', out) ->
         st <> RINGBUF_OK -> out = data)
  /\ (forall data rb st rb' out,
         RingBuf_ByteRead size_bits data rb = Done (st, rb', out) ->
         st <> RINGBUF_OK -> out = data)
  /\ (forall data rb st rb' out,
         RingBuf_ByteWatch data rb = Done (st, rb', out) ->
         st <> RINGBUF_OK -> out = data)
  /\ (forall b sz cellsize rb,
         fst (RingBuf_Init b sz cellsize rb) <> RINGBUF_ERR
         /\ (fst (RingBuf_Init b sz cellsize rb) <> RINGBUF_OK ->
             b = NULL
             /\ snd (RingBuf_Init b sz cellsize rb)
                = mkRINGBUF NULL (tail rb) (head rb) sz cellsize)).
Proof.
  repeat apply conj.
  - intros o rb st rb' H.
    destruct o as [|l0|b|data|data len|data|data|data len|data|data|data len];
      cbn [call] in H.
    + unfold RingBuf_Clear in H. destruct (buf rb); injection H as <- <-;
        (split; [discriminate | intros N; reflexivity || contradiction]).
    + unfold RingBuf_Available in H.
      destruct (buf rb); [|destruct (head rb <? tail rb)];
        injection H as <- <-; (split; [discriminate | reflexivity]).
    + exact (BytePut_status _ _ _ _ H).
    + exact (DataPut_status _ _ _ _ _ H).
    + exact (DataPut_status _ _ _ _ _ H).
    + apply bind_Done in H as [[[st1 rb1] out] [H1 [= <- <-]]].
      apply ByteRead_status in H1. tauto.
    + apply bind_Done in H as [[[st1 rb1] out] [H1 [= <- <-]]].
      apply DataRead_status in H1. tauto.
    + apply bind_Done in H as [[[st1 rb1] out] [H1 [= <- <-]]].
      apply DataRead_status in H1. tauto.
    + apply bind_Done in H as [[[st1 rb1] out] [H1 [= <- <-]]].
      apply ByteWatch_status in H1. tauto.
    + apply bind_Done in H as [[[st1 rb1] out] [H1 [= <- <-]]].
      apply DataWatch_status in H1. tauto.
    + apply bind_Done in H as [[[st1 rb1] out] [H1 [= <- <-]]].
      apply DataWatch_status in H1. tauto.
  - intros data len rb st rb' out H N. apply DataRead_status in H. tauto.
  - intros data len rb st rb' out H N. apply DataWatch_status in H. tauto.
  - intros data rb st rb' out H N. apply ByteRead_status in H. tauto.
  - intros data rb st rb' out H N. apply ByteWatch_status in H. tauto.
  - intros b sz cellsize rb. destruct b as [|d0]; cbn.
    + split; [discriminate|]. intros _. split; reflexivity.
    + split; [discriminate | contradiction].
Qed.

(** ** The invariant along runs of calls *)

Lemma call_keeps_binding (o : op) (rb rb' : RINGBUF_t) (s : RINGBUF_STATUS)
      (st : list byte) :
  bound_to size_bits rb st -> call size_bits o rb = Done (s, rb') ->
  exists st', bound_to size_bits rb' st'.
Proof.
  intros Hb H. pose proof Hb as [Hbuf Hlen Hsz Hc Hf].
  assert (Same : buf rb' = buf rb -> size rb' = size rb ->
                 cell_size rb' = cell_size rb ->
                 exists st', bound_to size_bits rb' st').
  { intros E1 E2 E3. exists st. constructor; congruence. }
  assert (Put : (exists st', buf rb' = Ptr st' /\ len_of st' = len_of st) ->
                size rb' = size rb -> cell_size rb' = cell_size rb ->
                exists st', bound_to size_bits rb' st').
  { intros (st' & E1 & L) E2 E3. exists st'. constructor; congruence. }
  destruct o as [|l0|b|data|data len|data|data|data len|data|data|data len];
    cbn [call] in H.
  - unfold RingBuf_Clear in H. rewrite Hbuf in H. injection H as _ <-.
    apply Same; reflexivity.
  - unfold RingBuf_Available in H. rewrite Hbuf in H.
    destruct (head rb <? tail rb); injection H as _ <-; apply Same; reflexivity.
  - pose proof (BytePut_frame _ _ _ _ H) as (_ & E2 & E3 & _).
    apply Put; [exact (BytePut_binding _ _ _ _ _ Hbuf H) | assumption..].
  - pose proof (DataPut_frame _ _ _ _ _ H) as (_ & E2 & E3 & _).
    apply Put; [exact (DataPut_binding _ _ _ _ _ _ Hbuf H) | assumption..].
  - pose proof (DataPut_frame _ _ _ _ _ H) as (_ & E2 & E3 & _).
    apply Put; [exact (DataPut_binding _ _ _ _ _ _ Hbuf H) | assumption..].
  - apply bind_Done in H as [[[st1 rb1] out] [H1 [= _ <-]]].
    apply ByteRead_frame in H1 as (_ & E2 & E3 & E1 & _). apply Same; assumption.
  - apply bind_Done in H as [[[st1 rb1] out] [H1 [= _ <-]]].
    apply DataRead_frame in H1 as (_ & E2 & E3 & E1 & _). apply Same; assumption.
  - apply bind_Done in H as [[[st1 rb1] out] [H1 [= _ <-]]].
    apply DataRead_frame in H1 as (_ & E2 & E3 & E1 & _). apply Same; assumption.
  - apply bind_Done in H as [[[st1 rb1] out] [H1 [= _ <-]]].
    apply ByteWatch_frame in H1 as ->. apply Same; reflexivity.
  - apply bind_Done in H as [[[st1 rb1] out] [H1 [= _ <-]]].
    apply DataWatch_frame in H1 as ->. apply Same; reflexivity.
  - apply bind_Done in H as [[[st1 rb1] out] [H1 [= _ <-]]].
    apply DataWatch_frame in H1 as ->. apply Same; reflexivity.
Qed.

Lemma args_ok_cell (o : op) (rb rb' : RINGBUF_t) :
  cell_size rb' = cell_size rb -> args_ok o rb -> args_ok o rb'.
Proof. intros E. destruct o; cbn [args_ok]; rewrite ?E; exact (fun H => H). Qed.

Lemma run_invariant (ops : list op) :
  forall (rb : RINGBUF_t) (st : list byte),
    bound_to size_bits rb st -> idx_ok rb ->
    (forall rb', run size_bits ops rb = Done rb' ->
                 (exists st', bound_to size_bits rb' st') /\ idx_ok rb'
                 /\ size rb' = size rb /\ cell_size rb' = cell_size rb)
    /\ (Forall (fun o => args_ok o rb) ops ->
        exists rb', run size_bits ops rb = Done rb').
Proof.
  induction ops as [|o ops IH]; intros rb st Hb Hi.
  - split.
    + intros rb' [= <-]. eauto.
    + intros _. exists rb. reflexivity.
  - assert (Step : forall s rb1, call size_bits o rb = Done (s, rb1) ->
                     (exists st1, bound_to size_bits rb1 st1) /\ idx_ok rb1
                     /\ size rb1 = size rb /\ cell_size rb1 = cell_size rb).
    { intros s rb1 H1.
      destruct (call_keeps_indices o rb rb1 s Hi H1) as [Hi1 Es].
      destruct (call_keeps_binding o rb rb1 s st Hb H1) as [st1 Hb1].
      repeat split; eauto; try apply Hi1.
      destruct (bound_len _ _ _ Hb1).
      destruct o; cbn [call] in H1;
        repeat match goal with
          | H : bind _ _ = Done _ |- _ =>
              apply bind_Done in H as [[[? ?] ?] [? [= <- <-]]]
          end;
        try (unfold RingBuf_Clear in H1; destruct (buf rb);
             injection H1 as _ <-; reflexivity);
        try (unfold RingBuf_Available in H1; destruct (buf rb);
             [|destruct (head rb <? tail rb)]; injection H1 as _ <-;
             reflexivity);
        try (apply BytePut_frame in H1; tauto);
        try (apply DataPut_frame in H1; tauto);
        try match goal with
          | H : RingBuf_ByteRead _ _ _ = _ |- _ => apply ByteRead_frame in H; tauto
          | H : RingBuf_CellRead _ _ _ = _ |- _ => apply DataRead_frame in H; tauto
          | H : RingBuf_DataRead _ _ _ _ = _ |- _ => apply DataRead_frame in H; tauto
          | H : RingBuf_ByteWatch _ _ = _ |- _ => apply ByteWatch_frame in H as ->; reflexivity
          | H : RingBuf_CellWatch _ _ _ = _ |- _ => apply DataWatch_frame in H as ->; reflexivity
          | H : RingBuf_DataWatch _ _ _ _ = _ |- _ => apply DataWatch_frame in H as ->; reflexivity
          end. }
    split.
    + intros rb' H. cbn [run] in H.
      apply bind_Done in H as [[s rb1] [H1 H2]]. cbn [snd] in H2.
      destruct (Step s rb1 H1) as ([st1 Hb1] & Hi1 & Es & Ec).
      destruct (IH rb1 st1 Hb1 Hi1) as [Inv _].
      destruct (Inv rb' H2) as (B & I & Es' & Ec').
      repeat split; try assumption; try apply I; congruence.
    + intros Hargs. apply Forall_cons_iff in Hargs as [Ha Hrest].
      destruct (call_defined o rb st Hb Hi Ha) as (s & rb1 & H1).
      destruct (Step s rb1 H1) as ([st1 Hb1] & Hi1 & Es & Ec).
      destruct (IH rb1 st1 Hb1 Hi1) as [_ Def].
      destruct Def as [rb' H2].
      { eapply Forall_impl; [|exact Hrest].
        intros o'. apply args_ok_cell. assumption. }
      exists rb'. cbn [run]. rewrite H1. exact H2.
Qed.

(** X11: Every state a run of calls reaches from an initialised buffer keeps the
    invariant: starting from init over a storage of [capacity >= 1] cells,
    after any run of calls of the interface the record is still bound to a
    storage of the same length, with the same capacity and cell size, and
    [0 <= head < capacity], [0 <= tail < capacity]; and the run does return
    when the arguments of its calls are well formed. *)
Theorem init_then_run (d : list byte) (sz cellsize : Z) (rb0 : RINGBUF_t)
        (ops : list op) :
  1 <= sz < 2 ^ 16 -> 0 <= cellsize -> sz * cellsize < 2 ^ size_bits ->
  len_of d = sz * cellsize ->
  let rb := snd (RingBuf_Init (Ptr d) sz cellsize rb0) in
  (forall rb', run size_bits ops rb = Done rb' ->
               (exists st', bound_to size_bits rb' st' /\ len_of st' = len_of d)
               /\ idx_ok rb' /\ size rb' = sz /\ cell_size rb' = cellsize)
  /\ (Forall (fun o => args_ok o rb) ops ->
      exists rb', run size_bits ops rb = Done rb').
Proof.
  intros Hsz Hc Hf Hd rb.
  assert (Hb : bound_to size_bits rb d)
    by (constructor; cbn; (assumption || reflexivity || lia)).
  assert (Hi : idx_ok rb) by (unfold idx_ok; cbn; lia).
  destruct (run_invariant ops rb d Hb Hi) as [Inv Def].
  split; [|exact Def].
  intros rb' H. destruct (Inv rb' H) as ([st' Hb'] & Hi' & Es & Ec).
  change (size rb) with sz in Es. change (cell_size rb) with cellsize in Ec.
  repeat split; try apply Hi'; try assumption.
  exists st'. split; [exact Hb'|].
  rewrite (bound_len _ _ _ Hb'), Es, Ec. lia.
Qed.

(** ** Clearing *)

(** X14: Clearing a bound buffer returns Ok and empties it without touching the
    storage: available() is 0 afterwards, capacity and cell size are kept,
    and a watch of [len] cells still returns the first [len] cells the
    storage holds. *)
Theorem clear_keeps_contents (rb : RINGBUF_t) (st d : list byte)
        (len len0 : Z) :
  bound_to size_bits rb st -> 0 <= len <= size rb -> 0 < size rb ->
  len * cell_size rb <= len_of d ->
  exists rb',
    RingBuf_Clear rb = (RINGBUF_OK, rb')
    /\ bound_to size_bits rb' st /\ head rb' = 0 /\ tail rb' = 0
    /\ RingBuf_Available size_bits len0 rb' = (RINGBUF_OK, rb', 0)
    /\ RingBuf_DataWatch size_bits (Ptr d) len rb'
       = Done (RINGBUF_OK, rb',
               Ptr (firstn (Z.to_nat (len * cell_size rb)) st
                    ++ skipn (Z.to_nat (len * cell_size rb)) d)).
Proof.
  intros Hb Hl Hs Hd. pose proof Hb as [Hbuf Hlen Hsz Hc Hf].
  set (rb' := set_tail (set_head rb 0) 0).
  assert (Hb' : bound_to size_bits rb' st) by (constructor; assumption).
  exists rb'. split; [unfold RingBuf_Clear; rewrite Hbuf; reflexivity|].
  split; [exact Hb'|]. split; [reflexivity|]. split; [reflexivity|]. split.
  - apply Available_same; [cbn; rewrite Hbuf; discriminate | reflexivity].
  - rewrite (DataWatch_ok rb' st d len Hb') by (cbn; lia || assumption).
    cbn [rb' set_tail set_head tail cell_size]. unfold window.
    assert (0 <= len * cell_size rb <= size rb * cell_size rb) by nia.
    rewrite window_flat by lia. reflexivity.
Qed.

End Properties.

(** * The properties at concrete buffers *)

Ltac by_evaluation := repeat split; vm_compute; (reflexivity || discriminate).

(** ** Where the code departs from the specification *)

(** C1 (defect of the code): [crossing3] is reached from a fresh buffer of
    three one-byte cells; reading its three cells returns the status and the
    data watch_many returns, but leaves [tail] at 0, where advancing by
    [len] modulo [capacity] gives [(1 + 3) mod 3 = 1]; available() then
    reports one cell in a buffer whose cells were all read. *)
Theorem read_many_tail_after_wrap :
  (r1 <- RingBuf_CellPut 32 (Ptr (bytes [66])) (fresh 3 1) ;;
   '(_, r2, _) <- RingBuf_CellRead 32 (Ptr (zeros 1)) (snd r1) ;;
   r3 <- RingBuf_DataPut 32 (Ptr (bytes [10; 20; 30])) 3 r2 ;;
   Done (snd r3)) = Done crossing3
  /\ RingBuf_DataWatch 32 (Ptr (zeros 3)) 3 crossing3
     = Done (RINGBUF_OK, crossing3, Ptr (bytes [10; 20; 30]))
  /\ RingBuf_DataRead 32 (Ptr (zeros 3)) 3 crossing3
     = Done (RINGBUF_OK, set_tail crossing3 0, Ptr (bytes [10; 20; 30]))
  /\ (tail crossing3 + 3) mod size crossing3 = 1
  /\ snd (RingBuf_Available 32 0 (set_tail crossing3 0)) = 1.
Proof. by_evaluation. Qed.

(** C2 (defect of the code): on a record whose storage pointer is null the
    watch calls do not return ParamError: watch_many with [len > capacity]
    returns Overflow, and watch_many with [len <= capacity], watch_one and
    the byte watch read through the null pointer. *)
Theorem watch_on_unbound :
  buf unbound3 = NULL
  /\ RingBuf_DataWatch 32 (Ptr (zeros 5)) 5 unbound3
     = Done (RINGBUF_OVERFLOW, unbound3, Ptr (zeros 5))
  /\ RingBuf_DataWatch 32 (Ptr (zeros 3)) 3 unbound3 = Undef
  /\ RingBuf_CellWatch 32 (Ptr (zeros 1)) unbound3 = Undef
  /\ RingBuf_ByteWatch (Ptr (zeros 1)) unbound3 = Undef.
Proof. by_evaluation. Qed.

(** C3 (defect of the code): a buffer of four one-byte cells, after three
    cells were put and read, is given the cells 10, 20, 30 in one put_many
    and read by a read_many of two cells and one of one cell; every call
    returns Ok, and the reads deliver 10, 20 and then 20 again. *)
Theorem fifo_after_wrapped_read :
  ('(_, s1) <- put_all 32 [(Ptr (bytes [1; 2; 3]), 3)] (fresh 4 1) ;;
   '(_, s2) <- read_all 32 [(Ptr (zeros 3), 3)] s1 ;;
   '(sts, s3) <- put_all 32 [(Ptr (bytes [10; 20; 30]), 3)] s2 ;;
   '(outs, s4) <- read_all 32 [(Ptr (zeros 2), 2); (Ptr (zeros 1), 1)] s3 ;;
   Done (head s2, tail s2, sts, outs, tail s4))
  = Done (3, 3, [RINGBUF_OK],
          [(RINGBUF_OK, Ptr (bytes [10; 20])); (RINGBUF_OK, Ptr (bytes [20]))],
          1).
Proof. by_evaluation. Qed.

(** ** Where the specification says more than the code does *)

(** C4, as stated, fails when [m = capacity]: three cells put into a fresh
    buffer of three cells leave available() at 0, not 3. *)
Lemma available_when_full_counterexample :
  let puts := [(Ptr (bytes [1; 2; 3]), 3)] in
  total puts <= size (fresh 3 1)
  /\ exists rb1,
       put_all 32 puts (fresh 3 1) = Done ([RINGBUF_OK], rb1)
       /\ RingBuf_Available 32 0 rb1 = (RINGBUF_OK, rb1, 0)
       /\ 0 <> total puts.
Proof.
  cbv zeta. split; [vm_compute; discriminate|].
  eexists. by_evaluation.
Qed.

(** C5, as stated, fails for a null output pointer: with [len > capacity]
    on a bound buffer, watch_many and read_many return ParamError. *)
Lemma overflow_null_output_counterexample :
  buf (fresh 3 1) <> NULL /\ size (fresh 3 1) < 5
  /\ RingBuf_DataWatch 32 NULL 5 (fresh 3 1)
     = Done (RINGBUF_PARAM_ERR, fresh 3 1, NULL)
  /\ RingBuf_DataRead 32 NULL 5 (fresh 3 1)
     = Done (RINGBUF_PARAM_ERR, fresh 3 1, NULL).
Proof. by_evaluation. Qed.

(** C6, as stated, fails for a null storage: init of a record that was in
    use leaves its [head] and [tail] where they were. *)
Lemma init_null_keeps_indices_counterexample :
  RingBuf_Init NULL 4 1 used4
  = (RINGBUF_PARAM_ERR, mkRINGBUF NULL 1 2 4 1)
  /\ head (snd (RingBuf_Init NULL 4 1 used4)) <> 0
  /\ tail (snd (RingBuf_Init NULL 4 1 used4)) <> 0.
Proof. by_evaluation. Qed.

(** ** The theorems at concrete buffers *)

Lemma fresh_bound (cells cell : Z) :
  0 <= cells < 2 ^ 16 -> 0 <= cell -> cells * cell < 2 ^ 32 ->
  bound_to 32 (fresh cells cell) (zeros (Z.to_nat (cells * cell))).
Proof.
  intros Hs Hc Hf. constructor; cbn; try assumption; try reflexivity.
  unfold zeros. rewrite repeat_length. nia.
Qed.

Lemma used4_bound : bound_to 32 used4 (bytes [1; 2; 0; 0]).
Proof. constructor; cbn; try reflexivity; lia. Qed.

Lemma used4_idx : idx_ok used4.
Proof. unfold idx_ok; cbn; lia. Qed.

Lemma full_reads_as_empty_witness :
  exists rb1,
    put_all 32 [(Ptr (bytes [1]), 1); (Ptr (bytes [2; 3]), 2)] (fresh 3 1)
    = Done ([RINGBUF_OK; RINGBUF_OK], rb1)
    /\ RingBuf_Available 32 0 rb1 = (RINGBUF_OK, rb1, 0)
    /\ RingBuf_Available 32 0 (fresh 3 1) = (RINGBUF_OK, fresh 3 1, 0).
Proof.
  apply (full_reads_as_empty 32 ltac:(lia) (fresh 3 1) (zeros 3)
           [(Ptr (bytes [1]), 1); (Ptr (bytes [2; 3]), 2)] 0).
  - apply (fresh_bound 3 1); lia.
  - reflexivity.
  - reflexivity.
  - repeat constructor; cbn; try lia; (eexists; split; [reflexivity | cbn; lia]).
  - reflexivity.
Defined.

Lemma watch_read_ignore_occupancy_witness :
  snd (RingBuf_Available 32 0 (fresh 3 1)) = 0
  /\ RingBuf_DataWatch 32 (Ptr (bytes [9; 9; 9])) 2 (fresh 3 1)
     = Done (RINGBUF_OK, fresh 3 1, Ptr (bytes [0; 0; 9]))
  /\ exists rb',
       RingBuf_DataRead 32 (Ptr (bytes [9; 9; 9])) 2 (fresh 3 1)
       = Done (RINGBUF_OK, rb', Ptr (bytes [0; 0; 9])).
Proof.
  split; [reflexivity|].
  apply (watch_read_ignore_occupancy 32 ltac:(lia) (fresh 3 1) (zeros 3)
           (bytes [9; 9; 9]) 2).
  - apply (fresh_bound 3 1); lia.
  - cbn; lia.
  - cbn; lia.
  - cbn; lia.
Defined.

Lemma transfers_frame_witness :
  buf used4 <> NULL
  /\ (exists rb', RingBuf_DataPut 32 (Ptr (bytes [7; 8; 9])) 3 used4
                  = Done (RINGBUF_OK, rb') /\ tail rb' = tail used4)
  /\ (exists w rb',
         RingBuf_DataWatch 32 (Ptr (zeros 3)) 3 used4
         = Done (RINGBUF_OK, used4, Ptr (w ++ []))
         /\ RingBuf_DataRead 32 (Ptr (bytes [5; 5; 5; 5])) 3 used4
            = Done (RINGBUF_OK, rb', Ptr (w ++ bytes [5]))
         /\ head rb' = head used4).
Proof.
  assert (Hbuf : buf used4 <> NULL) by discriminate.
  destruct (transfers_frame 32 ltac:(lia) used4 Hbuf) as (Fput & Fread & _ & Fok).
  split; [exact Hbuf|].
  destruct (Fok (bytes [1; 2; 0; 0]) (bytes [7; 8; 9]) (zeros 3) 3
              used4_bound used4_idx ltac:(cbn; lia) ltac:(cbn; lia)
              ltac:(cbn; lia)) as [[rb' Eput] _].
  destruct (Fok (bytes [1; 2; 0; 0]) (zeros 3) (bytes [5; 5; 5; 5]) 3
              used4_bound used4_idx ltac:(cbn; lia) ltac:(cbn; lia)
              ltac:(cbn; lia)) as [_ (w & rb'' & Ewatch & Eread)].
  split.
  - exists rb'. split; [exact Eput | exact (proj1 (Fput _ _ _ Eput))].
  - exists w, rb''. repeat split.
    + exact Ewatch.
    + exact Eread.
    + exact (proj1 (Fread _ _ _ _ Eread)).
Defined.

Lemma overflow_rejection_witness :
  buf (fresh 3 1) <> NULL
  /\ RingBuf_DataPut 32 (Ptr (zeros 5)) 5 (fresh 3 1)
     = Done (RINGBUF_OVERFLOW, fresh 3 1)
  /\ RingBuf_DataRead 32 (Ptr (zeros 5)) 5 (fresh 3 1)
     = Done (RINGBUF_OVERFLOW, fresh 3 1, Ptr (zeros 5))
  /\ RingBuf_DataWatch 32 (Ptr (zeros 5)) 5 (fresh 3 1)
     = Done (RINGBUF_OVERFLOW, fresh 3 1, Ptr (zeros 5))
  /\ (forall rb', RingBuf_DataPut 32 (Ptr (zeros 3)) 3 (fresh 3 1)
                  <> Done (RINGBUF_OVERFLOW, rb')).
Proof.
  assert (Hbuf : buf (fresh 3 1) <> NULL) by discriminate.
  destruct (overflow_rejection 32 (fresh 3 1) (Ptr (zeros 5)) 5 Hbuf)
    as [Hgt _].
  destruct (overflow_rejection 32 (fresh 3 1) (Ptr (zeros 3)) 3 Hbuf)
    as [_ Hle].
  destruct (Hgt ltac:(cbn; lia)) as [Eput Hout].
  destruct (Hout ltac:(discriminate)) as [Eread Ewatch].
  destruct (Hle ltac:(cbn; lia)) as [Nput _].
  repeat split; assumption.
Defined.

Lemma index_range_preserved_witness :
  exists st rb',
    call 32 (DataPut (Ptr (bytes [7; 8; 9])) 3) used4 = Done (st, rb')
    /\ idx_ok rb' /\ size rb' = size used4.
Proof.
  destruct (index_range_preserved 32 ltac:(lia)
              (DataPut (Ptr (bytes [7; 8; 9])) 3) used4
              ltac:(cbn; lia) used4_idx) as [Hkeep Hdef].
  destruct (Hdef (bytes [1; 2; 0; 0]) used4_bound) as (st & rb' & E).
  - split; [lia|]. eexists. split; [reflexivity | cbn; lia].
  - exists st, rb'. split; [exact E | exact (Hkeep st rb' E)].
Defined.

Lemma init_binds_and_resets_witness :
  RingBuf_Init (Ptr (zeros 4)) 4 1 used4
  = (RINGBUF_OK, mkRINGBUF (Ptr (zeros 4)) 0 0 4 1)
  /\ head (snd (RingBuf_Init (Ptr (zeros 4)) 4 1 used4)) = 0
  /\ tail (snd (RingBuf_Init (Ptr (zeros 4)) 4 1 used4)) = 0.
Proof.
  destruct (init_binds_and_resets (Ptr (zeros 4)) 4 1 used4)
    as (_ & _ & _ & _ & Hreset & _).
  destruct (Hreset ltac:(discriminate)) as (_ & Hh & Ht).
  split; [reflexivity | split; assumption].
Defined.

(** ** The further properties at concrete buffers *)

Lemma spun4_bound : bound_to 32 spun4 (bytes [1; 2; 3; 0]).
Proof. constructor; cbn; try reflexivity; lia. Qed.

Lemma spun4_idx : idx_ok spun4.
Proof. unfold idx_ok; cbn; lia. Qed.

Lemma crossing3_bound : bound_to 32 crossing3 (bytes [30; 10; 20]).
Proof. constructor; cbn; try reflexivity; lia. Qed.

Lemma crossing3_idx : idx_ok crossing3.
Proof. unfold idx_ok; cbn; lia. Qed.

Ltac args_hold_all :=
  repeat constructor; cbn; try lia;
  (eexists; split; [reflexivity | cbn; lia]).

Lemma available_accounting_witness :
  exists rb1 outs rb2,
    put_all 32 [(Ptr (bytes [10; 20]), 2); (Ptr (bytes [30]), 1)] spun4
    = Done ([RINGBUF_OK; RINGBUF_OK], rb1)
    /\ RingBuf_Available 32 0 rb1 = (RINGBUF_OK, rb1, 3)
    /\ read_all 32 [(Ptr (zeros 1), 1); (Ptr (zeros 1), 1)] rb1
       = Done (outs, rb2)
    /\ map fst outs = [RINGBUF_OK; RINGBUF_OK]
    /\ RingBuf_Available 32 0 rb2 = (RINGBUF_OK, rb2, 1).
Proof.
  apply (available_accounting 32 ltac:(lia) spun4 (bytes [1; 2; 3; 0])
           [(Ptr (bytes [10; 20]), 2); (Ptr (bytes [30]), 1)]
           [(Ptr (zeros 1), 1); (Ptr (zeros 1), 1)] 0
           spun4_bound spun4_idx).
  - reflexivity.
  - args_hold_all.
  - cbn; lia.
  - args_hold_all.
  - cbn; lia.
  - cbn. lia.
Defined.

Lemma put_then_read_witness :
  exists rb1 rb2,
    RingBuf_DataPut 32 (Ptr (bytes [10; 20; 30])) 3 spun4
    = Done (RINGBUF_OK, rb1)
    /\ RingBuf_DataRead 32 (Ptr (zeros 3)) 3 rb1
       = Done (RINGBUF_OK, rb2, Ptr (bytes [10; 20; 30])).
Proof.
  apply (put_then_read 32 ltac:(lia) spun4 (bytes [1; 2; 3; 0])
           (bytes [10; 20; 30]) (zeros 3) 3 spun4_bound spun4_idx).
  - reflexivity.
  - cbn; lia.
  - cbn; lia.
  - cbn; lia.
Defined.

Lemma fifo_order_witness :
  exists rb1 outs rb2,
    put_all 32 [(Ptr (bytes [10; 20]), 2); (Ptr (bytes [30]), 1)] spun4
    = Done ([RINGBUF_OK; RINGBUF_OK], rb1)
    /\ read_all 32 [(Ptr (zeros 1), 1); (Ptr (zeros 2), 2)] rb1
       = Done (outs, rb2)
    /\ map fst outs = [RINGBUF_OK; RINGBUF_OK]
    /\ delivered 1 [(Ptr (zeros 1), 1); (Ptr (zeros 2), 2)] outs
       = bytes [10; 20; 30].
Proof.
  destruct (fifo_order 32 ltac:(lia) spun4 (bytes [1; 2; 3; 0])
              [(Ptr (bytes [10; 20]), 2); (Ptr (bytes [30]), 1)]
              [(Ptr (zeros 1), 1); (Ptr (zeros 2), 2)]
              spun4_bound spun4_idx)
    as (rb1 & outs & rb2 & H1 & H2 & H3 & _ & H5).
  - reflexivity.
  - args_hold_all.
  - args_hold_all.
  - cbn; lia.
  - cbn; lia.
  - cbn. lia.
  - exists rb1, outs, rb2. repeat split; try assumption.
    exact (H5 eq_refl).
Defined.

Lemma fifo_cell_by_cell_witness :
  exists rb1 outs rb2,
    put_all 32 [(Ptr (bytes [10; 20; 30]), 3)] spun4
    = Done ([RINGBUF_OK], rb1)
    /\ read_all 32 [(Ptr (zeros 1), 1); (Ptr (zeros 1), 1)] rb1
       = Done (outs, rb2)
    /\ map fst outs = [RINGBUF_OK; RINGBUF_OK]
    /\ delivered 1 [(Ptr (zeros 1), 1); (Ptr (zeros 1), 1)] outs
       = bytes [10; 20].
Proof.
  apply (fifo_cell_by_cell 32 ltac:(lia) spun4 (bytes [1; 2; 3; 0])
           [(Ptr (bytes [10; 20; 30]), 3)]
           [(Ptr (zeros 1), 1); (Ptr (zeros 1), 1)]
           spun4_bound spun4_idx).
  - reflexivity.
  - args_hold_all.
  - args_hold_all.
  - repeat constructor.
  - cbn; lia.
  - cbn; lia.
Defined.

Lemma put_many_effect_witness :
  exists rb' st',
    RingBuf_DataPut 32 (Ptr (bytes [7; 8; 9])) 3 used4 = Done (RINGBUF_OK, rb')
    /\ bound_to 32 rb' st' /\ head rb' = 1 /\ tail rb' = 1
    /\ window st' 2 3 = bytes [7; 8; 9]
    /\ window st' 1 1 = bytes [2].
Proof.
  destruct (put_many_effect 32 ltac:(lia) used4 (bytes [1; 2; 0; 0])
              (bytes [7; 8; 9]) 3 used4_bound used4_idx
              ltac:(cbn; lia) ltac:(cbn; lia))
    as (rb' & st' & E & Hb & Hh & Ht & _ & _ & W & F).
  exists rb', st'. split; [exact E|]. split; [exact Hb|].
  split; [exact Hh|]. split; [exact Ht|]. split; [exact W|].
  rewrite Hh in F. exact F.
Defined.

Lemma read_many_tail_witness :
  exists rb' out,
    RingBuf_DataRead 32 (Ptr (zeros 3)) 3 crossing3
    = Done (RINGBUF_OK, rb', out)
    /\ tail rb' = 0.
Proof.
  destruct (read_many_tail 32 ltac:(lia) crossing3 (bytes [30; 10; 20])
              (zeros 3) 3 crossing3_bound crossing3_idx
              ltac:(cbn; lia) ltac:(cbn; lia) ltac:(cbn; lia))
    as (rb' & out & E & Ht & _).
  exists rb', out. split; [exact E | exact Ht].
Defined.

Lemma available_distance_witness :
  exists n, RingBuf_Available 32 0 used4 = (RINGBUF_OK, used4, n) /\ n = 1.
Proof.
  destruct (available_distance 32 ltac:(lia) used4 (bytes [1; 2; 0; 0]) 0
              used4_bound used4_idx) as (n & E & En & _).
  exists n. split; [exact E | exact En].
Defined.

Lemma zero_length_transfers_witness :
  RingBuf_DataPut 32 (Ptr []) 0 used4 = Done (RINGBUF_OK, used4)
  /\ RingBuf_DataWatch 32 (Ptr []) 0 used4 = Done (RINGBUF_OK, used4, Ptr [])
  /\ RingBuf_DataRead 32 (Ptr []) 0 used4 = Done (RINGBUF_OK, used4, Ptr []).
Proof.
  exact (zero_length_transfers 32 ltac:(lia) used4 (bytes [1; 2; 0; 0]) []
           used4_bound used4_idx).
Defined.

Lemma one_cell_calls_step_witness :
  (exists rb', RingBuf_CellPut 32 (Ptr (bytes [5])) spun4
               = Done (RINGBUF_OK, rb') /\ head rb' = 0)
  /\ (exists rb' out, RingBuf_ByteRead 32 (Ptr (bytes [5])) spun4
                      = Done (RINGBUF_OK, rb', out) /\ tail rb' = 0).
Proof.
  destruct (one_cell_calls_step 32 ltac:(lia) spun4 (bytes [1; 2; 3; 0])
              (bytes [5]) (u8 7) spun4_bound spun4_idx
              ltac:(cbn; lia) ltac:(cbn; lia))
    as ((rb1 & E1 & H1 & _) & _ & _ & (rb4 & out & E4 & H4 & _)).
  split.
  - exists rb1. split; [exact E1 | exact H1].
  - exists rb4, out. split; [exact E4 | exact H4].
Defined.

Lemma byte_calls_are_cell_calls_witness :
  RingBuf_BytePut 32 (u8 7) used4 = RingBuf_CellPut 32 (Ptr [u8 7]) used4
  /\ RingBuf_ByteWatch (Ptr (zeros 1)) used4
     = RingBuf_CellWatch 32 (Ptr (zeros 1)) used4
  /\ RingBuf_ByteRead 32 (Ptr (zeros 1)) used4
     = RingBuf_CellRead 32 (Ptr (zeros 1)) used4.
Proof.
  apply (byte_calls_are_cell_calls 32 ltac:(lia) used4 (bytes [1; 2; 0; 0])
           (zeros 1) (u8 7) used4_bound used4_idx).
  - reflexivity.
  - cbn; lia.
Defined.

Lemma byte_round_trip_witness :
  exists rb1 rb2,
    RingBuf_BytePut 32 (u8 7) spun4 = Done (RINGBUF_OK, rb1)
    /\ RingBuf_ByteRead 32 (Ptr (zeros 1)) rb1
       = Done (RINGBUF_OK, rb2, Ptr [u8 7])
    /\ head rb2 = tail rb2.
Proof.
  apply (byte_round_trip 32 ltac:(lia) spun4 (bytes [1; 2; 3; 0]) (zeros 1)
           (u8 7) spun4_bound spun4_idx).
  - reflexivity.
  - cbn; lia.
  - cbn; lia.
Defined.

Lemma init_then_run_witness :
  exists rb',
    run 32 [DataPut (Ptr (bytes [1; 2; 3])) 3; DataRead (Ptr (zeros 3)) 3;
            DataPut (Ptr (bytes [10; 20; 30])) 3; DataRead (Ptr (zeros 2)) 2;
            Available 0]
        (snd (RingBuf_Init (Ptr (zeros 4)) 4 1 (mkRINGBUF NULL 0 0 0 0)))
    = Done rb'
    /\ idx_ok rb' /\ size rb' = 4 /\ cell_size rb' = 1.
Proof.
  destruct (init_then_run 32 ltac:(lia) (zeros 4) 4 1 (mkRINGBUF NULL 0 0 0 0)
              [DataPut (Ptr (bytes [1; 2; 3])) 3; DataRead (Ptr (zeros 3)) 3;
               DataPut (Ptr (bytes [10; 20; 30])) 3;
               DataRead (Ptr (zeros 2)) 2; Available 0]
              ltac:(lia) ltac:(lia) ltac:(lia) ltac:(reflexivity))
    as [Inv Def].
  destruct Def as [rb' E].
  - repeat constructor; cbn; try lia;
      (eexists; split; [reflexivity | cbn; lia]).
  - exists rb'. split; [exact E|].
    destruct (Inv rb' E) as (_ & Hi & Hs & Hc). auto.
Defined.

Lemma unbound_rejected_witness :
  call 32 (DataPut (Ptr (zeros 1)) 1) unbound3
  = Done (RINGBUF_PARAM_ERR, unbound3).
Proof.
  apply (unbound_rejected 32 (DataPut (Ptr (zeros 1)) 1) unbound3).
  - reflexivity.
  - reflexivity.
Defined.

Lemma clear_keeps_contents_witness :
  exists rb',
    RingBuf_Clear used4 = (RINGBUF_OK, rb')
    /\ RingBuf_Available 32 0 rb' = (RINGBUF_OK, rb', 0)
    /\ RingBuf_DataWatch 32 (Ptr (zeros 2)) 2 rb'
       = Done (RINGBUF_OK, rb', Ptr (bytes [1; 2])).
Proof.
  destruct (clear_keeps_contents 32 ltac:(lia) used4 (bytes [1; 2; 0; 0])
              (zeros 2) 2 0 used4_bound
              ltac:(cbn; lia) ltac:(cbn; lia) ltac:(cbn; lia))
    as (rb' & E & _ & _ & _ & A & W).
  exists rb'. split; [exact E|]. split; [exact A | exact W].
Defined.
